(** * csup_analyzer: the result table and its derivation pipeline

    A shallow embedding of [csup_analyzer/event/Result.py]: the [Result]
    record built from one raw header entry, and [RaceResultsDataFrame], the
    table whose four derivation steps compute the starting grid, the final
    classification, the interpolated time to the line and the position of
    every driver after every lap.

    Modelling conventions.
    - Durations are exact rationals ([Q]); every finite float is one, and the
      order of floats is the order of the rationals they denote. Sums and
      differences are exact here, where the code rounds to the nearest
      float: the statements below rest on the order of the values only, not
      on identities of exact arithmetic.
    - A missing cell ([None], [np.nan]) is [None].
    - A data frame is the list of its rows, in row order, with the list of
      its column labels; a row carries its index label (the driver id).
    - [sort_values] puts missing keys last. By several keys it is a stable
      sort. By a single key it runs numpy's quicksort, which does not keep
      rows with equal keys in the order they had: that routine is a
      parameter of the model, [quicksort].
    - The fit behind [Series.interpolate(method="spline", order=2)] is a
      parameter of the model, [spline].
    - Methods of the frame run in a state and error monad: the state is the
      frame and what was printed so far, the error is the exception raised,
      by pandas ([KeyError], [ValueError], [TypeError]) or by scipy
      ([dfitpack.error]). *)

From Stdlib Require Import String Ascii List Bool Arith PeanoNat Lia.
From Stdlib Require Import QArith Permutation Sorted.
Import ListNotations.

Local Close Scope Q_scope.
Local Open Scope string_scope.
Local Open Scope list_scope.
Local Open Scope nat_scope.

(** ** Python values *)

(** Truth value of an optional number: [None] and zero are falsy. *)
Definition truthy (x : option Q) : bool :=
  match x with
  | None => false
  | Some q => negb (Qeq_bool q 0)
  end.

(** [sum(l)]: left to right, from 0. *)
Definition sum (l : list Q) : Q := fold_left Qplus l 0%Q.

(** [min(l)] of a non-empty list: the first smallest element. *)
Definition min_from (x : Q) (l : list Q) : Q :=
  fold_left (fun m y => if Qle_bool m y then m else y) l x.

Definition min (l : list Q) : option Q :=
  match l with
  | [] => None
  | x :: l' => Some (min_from x l')
  end.

(** [pd.isna], [np.isnan] *)
Definition isna {A : Type} (x : option A) : bool :=
  match x with
  | None => true
  | Some _ => false
  end.

(** ** class Result *)

Module Result.

(** One entry of the header file. *)
Record raw := mk_raw {
  racingTeamId : nat;
  finishTime : option Q;
  lapTimes : list Q;
  lapTimePenalties : list Q;
  numLapsLed : nat;
  metresDriven : Q
}.

Record t := mk {
  driver_id : nat;
  total_time : option Q;
  lap_times : list Q;
  num_laps_driven : option nat;
  fastest_lap_time : option Q;
  lap_time_penalties : list Q;
  num_laps_led : nat;
  metres_driven : Q;
  time_until_starting_line : option Q
}.

Definition assign_individual_properties (res : raw) : t :=
  let total_time := finishTime res in
  let lap_times := lapTimes res in
  {| driver_id := racingTeamId res;
     total_time := total_time;
     lap_times := lap_times;
     num_laps_driven :=
       match lap_times with [] => None | _ => Some (length lap_times) end;
     fastest_lap_time :=
       match lap_times with [] => None | _ => min lap_times end;
     lap_time_penalties := lapTimePenalties res;
     num_laps_led := numLapsLed res;
     metres_driven := metresDriven res;
     time_until_starting_line :=
       match total_time with
       | Some d => if truthy total_time
                   then Some (d - sum lap_times)%Q
                   else None
       | None => None
       end |}.

End Result.

(** ** Sorting as [DataFrame.sort_values] does *)

(** A missing key sorts after every present one, whatever the direction. *)
Definition na_last {A : Type} (cmp : A -> A -> comparison)
    (x y : option A) : comparison :=
  match x, y with
  | Some a, Some b => cmp a b
  | Some _, None => Lt
  | None, Some _ => Gt
  | None, None => Eq
  end.

Definition ascending {A : Type} (cmp : A -> A -> comparison) := na_last cmp.

Definition descending {A : Type} (cmp : A -> A -> comparison) :=
  na_last (fun a b => cmp b a).

(** Several keys: the first that tells two rows apart decides. *)
Definition then_by (c1 c2 : comparison) : comparison :=
  match c1 with
  | Eq => c2
  | _ => c1
  end.

Definition on {A K : Type} (key : A -> K) (cmp : K -> K -> comparison)
    (a b : A) : comparison :=
  cmp (key a) (key b).

Definition leb_of {A : Type} (cmp : A -> A -> comparison) (a b : A) : bool :=
  match cmp a b with
  | Gt => false
  | _ => true
  end.

Fixpoint insert_sorted {A : Type} (cmp : A -> A -> comparison)
    (a : A) (l : list A) : list A :=
  match l with
  | [] => [a]
  | b :: l' => if leb_of cmp a b then a :: l else b :: insert_sorted cmp a l'
  end.

(** The sort by several keys: rows with equal keys keep the order they
    had. *)
Definition sort_values {A : Type} (cmp : A -> A -> comparison)
    (l : list A) : list A :=
  fold_right (insert_sorted cmp) [] l.

(** [a] may stand before [b] in a frame sorted by [cmp]. *)
Definition in_order {A : Type} (cmp : A -> A -> comparison) (a b : A) : Prop :=
  leb_of cmp a b = true.

(** What a sort needs of a comparison: swapping the arguments flips the
    answer, "before" is transitive, and rows that compare equal compare
    alike with every other row. *)
Class Comparator {A : Type} (cmp : A -> A -> comparison) : Prop := {
  cmp_flip : forall a b, cmp b a = CompOpp (cmp a b);
  cmp_lt_trans : forall a b c, cmp a b = Lt -> cmp b c = Lt -> cmp a c = Lt;
  cmp_eq_left : forall a b c, cmp a b = Eq -> cmp a c = cmp b c
}.

(** [list(range(1, n + 1))] *)
Definition range1 (n : nat) : list nat := seq 1 n.

(** ** class RaceResultsDataFrame *)

Record Row := mk_Row {
  index : nat;
  name : string;
  total_time_race : option Q;
  lap_times_race : option (list Q);
  num_laps_driven_race : option nat;
  time_until_starting_line_race : option Q;
  fastest_lap_time_quali : option Q;
  starting_position_race : option nat;
  end_position_race : option nat;
  lap_positions_race : option (list (option nat))
}.

Definition set_starting_position_race (v : option nat) (r : Row) : Row :=
  mk_Row (index r) (name r) (total_time_race r) (lap_times_race r)
    (num_laps_driven_race r) (time_until_starting_line_race r)
    (fastest_lap_time_quali r) v (end_position_race r)
    (lap_positions_race r).

Definition set_end_position_race (v : option nat) (r : Row) : Row :=
  mk_Row (index r) (name r) (total_time_race r) (lap_times_race r)
    (num_laps_driven_race r) (time_until_starting_line_race r)
    (fastest_lap_time_quali r) (starting_position_race r) v
    (lap_positions_race r).

Definition set_time_until_starting_line_race (v : option Q) (r : Row) : Row :=
  mk_Row (index r) (name r) (total_time_race r) (lap_times_race r)
    (num_laps_driven_race r) v
    (fastest_lap_time_quali r) (starting_position_race r)
    (end_position_race r) (lap_positions_race r).

Definition set_lap_positions_race (v : option (list (option nat)))
    (r : Row) : Row :=
  mk_Row (index r) (name r) (total_time_race r) (lap_times_race r)
    (num_laps_driven_race r) (time_until_starting_line_race r)
    (fastest_lap_time_quali r) (starting_position_race r)
    (end_position_race r) v.

Record RaceResultsDataFrame := mk_frame {
  rows : list Row;
  columns : list string
}.

(** [col.endswith(suffix)] *)
Definition endswith (suffix col : string) : bool :=
  let n := String.length col in
  let m := String.length suffix in
  (m <=? n) && String.eqb (substring (n - m) m col) suffix.

Definition has_column (c : string) (f : RaceResultsDataFrame) : bool :=
  existsb (String.eqb c) (columns f).

Definition has_quali_data (f : RaceResultsDataFrame) : bool :=
  existsb (endswith "_quali") (columns f).

Definition participants (f : RaceResultsDataFrame) : nat :=
  List.length (rows f).

(** [self[c] = values]: the cells are set row by row, in row order, and the
    label is added when the frame does not have it yet. *)
Definition assign_column {V : Type} (c : string) (set : V -> Row -> Row)
    (values : list V) (f : RaceResultsDataFrame) : RaceResultsDataFrame :=
  {| rows := map (fun rv => set (snd rv) (fst rv)) (combine (rows f) values);
     columns := if has_column c f then columns f else columns f ++ [c] |}.

(** *** What a method prints, what it raises *)

Inductive Output :=
| WARNING_lap_position_table
| Calculated_position_seems_to_be_incorrect
    (driver : string) (expected : option nat) (found : nat).

(** [KeyError]: a column that the frame does not have is read.
    [dfitpack_error]: scipy is asked for a spline through too few points.
    [ValueError]: [pd.concat] is given an empty series and an empty frame.
    [TypeError]: [pd.DataFrame] is given a list of lists with a missing
    value among them. *)
Inductive Exception :=
| KeyError (label : string)
| dfitpack_error
| ValueError
| TypeError.

Record World := mk_World {
  self : RaceResultsDataFrame;
  stdout : list Output
}.

Inductive Outcome (A : Type) :=
| Raised (e : Exception)
| Returned (a : A) (w : World).

Arguments Raised {A} e.
Arguments Returned {A} a w.

Definition M (A : Type) : Type := World -> Outcome A.

Definition ret {A : Type} (a : A) : M A := fun w => Returned a w.

Definition bind {A B : Type} (m : M A) (k : A -> M B) : M B :=
  fun w =>
    match m w with
    | Raised e => Raised e
    | Returned a w' => k a w'
    end.

Definition raise {A : Type} (e : Exception) : M A := fun _ => Raised e.

Declare Scope method_scope.
Delimit Scope method_scope with method.
Notation "x <- m ;; k" := (bind m (fun x => k))
  (at level 61, m at next level, right associativity) : method_scope.
Notation "m ;; k" := (bind m (fun _ => k))
  (at level 61, right associativity) : method_scope.
Local Open Scope method_scope.

Definition get_self : M RaceResultsDataFrame :=
  fun w => Returned (self w) w.

Definition update_self (g : RaceResultsDataFrame -> RaceResultsDataFrame)
    : M unit :=
  fun w => Returned tt {| self := g (self w); stdout := stdout w |}.

Definition print (o : Output) : M unit :=
  fun w => Returned tt {| self := self w; stdout := stdout w ++ [o] |}.

(** Reading a column the frame does not have raises [KeyError]. *)
Definition getitem (c : string) : M unit :=
  f <- get_self ;;
  if has_column c f then ret tt else raise (KeyError c).

Fixpoint getitems (cs : list string) : M unit :=
  match cs with
  | [] => ret tt
  | c :: cs' => getitem c ;; getitems cs'
  end.

(** *** The sort keys of the first two steps *)

Definition by_time_until_starting_line_race : Row -> Row -> comparison :=
  on time_until_starting_line_race (ascending Qcompare).

Definition by_quali_then_starting_line : Row -> Row -> comparison :=
  fun a b =>
    then_by (on fastest_lap_time_quali (ascending Qcompare) a b)
            (on time_until_starting_line_race (ascending Qcompare) a b).

Definition by_laps_time_grid : Row -> Row -> comparison :=
  fun a b =>
    then_by (on num_laps_driven_race (descending Nat.compare) a b)
      (then_by (on total_time_race (ascending Qcompare) a b)
               (on starting_position_race (ascending Nat.compare) a b)).

(** *** The routines of the working frame of step 4 *)

(** A row of the working frame [df]: the columns kept from [self], the
    cumulated times under the labels 0, 1, ..., and the positions under
    "Lap 0", "Lap 1", ..., in the order in which the loop adds them. *)
Record LapRow := mk_LapRow {
  l_index : nat;
  l_name : string;
  l_time_until_starting_line_race : option Q;
  l_starting_position_race : option nat;
  l_end_position_race : option nat;
  l_times : list (option Q);
  l_Lap : list (option nat)
}.

(** [self.loc[~self["lap_times_race"].isna(), ...]]: a list is not a missing
    value, be it empty. *)
Definition with_lap_times (rs : list Row) : list (Row * list Q) :=
  flat_map (fun r => match lap_times_race r with
                     | Some l => [(r, l)]
                     | None => []
                     end) rs.

(** [pd.DataFrame(lists)] has as many columns as the longest list has
    entries; shorter rows end in missing cells. *)
Definition width {A : Type} (ls : list (list A)) : nat :=
  fold_right (fun l w => Nat.max (List.length l) w) 0 ls.

Definition padded (w : nat) (l : list Q) : list (option Q) :=
  map Some l ++ repeat None (w - List.length l).

(** [cumsum(axis=1)]: a missing cell stays missing and adds nothing. *)
Fixpoint cumsum_from (acc : option Q) (l : list (option Q))
    : list (option Q) :=
  match l with
  | [] => []
  | None :: l' => None :: cumsum_from acc l'
  | Some x :: l' =>
      let s := match acc with
               | None => x
               | Some a => (a + x)%Q
               end in
      Some s :: cumsum_from (Some s) l'
  end.

Definition cumsum (l : list (option Q)) : list (option Q) :=
  cumsum_from None l.

Definition lap_frame (rs : list Row) : list LapRow :=
  let df := with_lap_times rs in
  let w := width (map snd df) in
  map (fun rl =>
         let r := fst rl in
         {| l_index := index r;
            l_name := name r;
            l_time_until_starting_line_race :=
              time_until_starting_line_race r;
            l_starting_position_race := starting_position_race r;
            l_end_position_race := end_position_race r;
            l_times :=
              cumsum (time_until_starting_line_race r :: padded w (snd rl));
            l_Lap := [] |}) df.

(** The labels of [df_lap_times.columns] after the concatenation. *)
Definition lap_columns (rs : list Row) : list nat :=
  seq 0 (S (width (map snd (with_lap_times rs)))).

Definition time_at (col : nat) (r : LapRow) : option Q :=
  nth col (l_times r) None.

Definition add_Lap (v : option nat) (r : LapRow) : LapRow :=
  mk_LapRow (l_index r) (l_name r) (l_time_until_starting_line_race r)
    (l_starting_position_race r) (l_end_position_race r) (l_times r)
    (l_Lap r ++ [v]).

Fixpoint set_nth {A : Type} (n : nat) (v : A) (l : list A) : list A :=
  match l, n with
  | [], _ => []
  | _ :: l', 0 => v :: l'
  | a :: l', S n' => a :: set_nth n' v l'
  end.

Definition set_Lap (col : nat) (v : option nat) (r : LapRow) : LapRow :=
  mk_LapRow (l_index r) (l_name r) (l_time_until_starting_line_race r)
    (l_starting_position_race r) (l_end_position_race r) (l_times r)
    (set_nth col v (l_Lap r)).

(** [row[col_pos_last_lap] != row["end_position_race"]] *)
Definition differs (found : nat) (expected : option nat) : bool :=
  match expected with
  | Some e => negb (found =? e)
  | None => true
  end.

Fixpoint check_last_lap (col : nat) (df : list LapRow) : M unit :=
  match df with
  | [] => ret tt
  | r :: df' =>
      match nth col (l_Lap r) None with
      | None => ret tt
      | Some found =>
          if differs found (l_end_position_race r)
          then print (Calculated_position_seems_to_be_incorrect
                        (l_name r) (l_end_position_race r) found)
          else ret tt
      end ;;
      check_last_lap col df'
  end.

(** [fillna(method="bfill", axis=1)]: a missing cell takes the next value
    to its right that is present. *)
Fixpoint bfill (l : list (option nat)) : list (option nat) :=
  match l with
  | [] => []
  | x :: l' =>
      let filled := bfill l' in
      match x with
      | Some _ => x :: filled
      | None => hd None filled :: filled
      end
  end.

(** A row of [df_lap_table]: the grid slot, then "Lap 1", "Lap 2", ... *)
Definition lap_table_row (r : LapRow) : list (option nat) :=
  l_starting_position_race r :: skipn 1 (l_Lap r).

Definition lap_table (df : list LapRow)
    : list (nat * list (option nat)) :=
  map (fun r => (l_index r, bfill (lap_table_row r))) df.

(** The loop that writes the lists back into [self], by index label. *)
Definition store_lap_positions (items : list (nat * list (option nat)))
    (rs : list Row) : list Row :=
  fold_left
    (fun rs iv =>
       map (fun r => if index r =? fst iv
                     then set_lap_positions_race (Some (snd iv)) r
                     else r) rs)
    items rs.

(** *** [pd.DataFrame] of a column of lists *)

(** The frame [pd.DataFrame(cells)] builds. When the first cell is a list
    the cells are read as the rows of the frame, a row shorter than the
    longest ending in missing values, and a cell that is not a list raises
    [TypeError]. When the first cell is missing the cells are read as the
    values of a single column. *)
Inductive DataFrame :=
| of_rows (values : list (list (option nat)))
| of_column (cells : list (option (list (option nat)))).

Fixpoint lists_of {A : Type} (cells : list (option A)) : option (list A) :=
  match cells with
  | [] => Some []
  | None :: _ => None
  | Some l :: cells' =>
      match lists_of cells' with
      | Some ls => Some (l :: ls)
      | None => None
      end
  end.

Definition filled_to (w : nat) (l : list (option nat)) : list (option nat) :=
  l ++ repeat None (w - List.length l).

Definition pd_DataFrame (cells : list (option (list (option nat))))
    : M DataFrame :=
  match cells with
  | [] => ret (of_rows [])
  | None :: _ => ret (of_column cells)
  | Some _ :: _ =>
      match lists_of cells with
      | Some ls => ret (of_rows (map (filled_to (width ls)) ls))
      | None => raise TypeError
      end
  end.

(** *** The methods *)

Section Methods.

(** The routine behind [sort_values] by a single key: numpy's quicksort on
    the key column. It does not promise to keep rows with equal keys in the
    order they had, and what it does with them depends on the number of
    rows and on the build of numpy. It is a parameter of the model, of
    which two things are assumed: it returns the rows it is given, and it
    returns them in the order of the key. *)
Variable quicksort : forall A : Type, (A -> A -> comparison) -> list A -> list A.

Arguments quicksort {A}.

Hypothesis quicksort_Permutation :
  forall (A : Type) (cmp : A -> A -> comparison) (l : list A),
    Permutation (quicksort cmp l) l.

Hypothesis quicksort_StronglySorted :
  forall (A : Type) (cmp : A -> A -> comparison),
    Comparator cmp ->
    forall l : list A, StronglySorted (in_order cmp) (quicksort cmp l).

(** [self.sort_values(by=..., inplace=True)]: by several keys the stable
    sort, by a single key [quicksort]. *)
Definition sort_values_inplace (by_labels : list string)
    (cmp : Row -> Row -> comparison) : M unit :=
  getitems by_labels ;;
  update_self (fun f =>
    {| rows := match by_labels with
               | [_] => quicksort cmp (rows f)
               | _ => sort_values cmp (rows f)
               end;
       columns := columns f |}).

(** *** Steps 1 and 2 *)

Definition __calc_starting_position : M unit :=
  f <- get_self ;;
  (if has_quali_data f
   then sort_values_inplace
          ["fastest_lap_time_quali"; "time_until_starting_line_race"]
          by_quali_then_starting_line
   else sort_values_inplace ["time_until_starting_line_race"]
          by_time_until_starting_line_race) ;;
  update_self (fun f =>
    assign_column "starting_position_race" set_starting_position_race
      (map Some (range1 (participants f))) f).

Definition __calc_race_position : M unit :=
  sort_values_inplace
    ["num_laps_driven_race"; "total_time_race"; "starting_position_race"]
    by_laps_time_grid ;;
  update_self (fun f =>
    assign_column "end_position_race" set_end_position_race
      (map Some (range1 (participants f))) f).

(** *** Step 3 *)

Section Interpolation.

(** The numerical routine behind [Series.interpolate(method="spline",
    order=2)]: from the points that are present, as (index, value) pairs,
    the value at an index where the series has none ([None] where the
    routine leaves the gap). It is a parameter of the model. *)
Variable spline : list (nat * Q) -> nat -> option Q.

Definition order : nat := 2.

Definition present_points (s : list (nat * option Q)) : list (nat * Q) :=
  flat_map (fun xy => match snd xy with
                      | Some y => [(fst xy, y)]
                      | None => []
                      end) s.

(** The series with its gaps filled: values that are present stay, a
    missing one is asked from [spline]; a series without any value stays
    as it is. *)
Definition interpolated (s : list (nat * option Q)) : list (option Q) :=
  match present_points s with
  | [] => map snd s
  | pts => map (fun xy => match snd xy with
                          | Some y => Some y
                          | None => spline pts (fst xy)
                          end) s
  end.

(** [s.interpolate(method="spline", order=2)]: pandas calls scipy when the
    series has a gap and a value, and scipy refuses to fit a spline of
    order 2 through fewer than three points ([None]). *)
Definition Series_interpolate (s : list (nat * option Q))
    : option (list (option Q)) :=
  let n := List.length (present_points s) in
  if (0 <? n) && (n <? List.length s) && (n <=? order)
  then None
  else Some (interpolated s).

(** The column, in the row order of the frame at the time of the call,
    under the index 1, 2, ... *)
Definition reindexed_series (f : RaceResultsDataFrame)
    : list (nat * option Q) :=
  combine (range1 (participants f))
          (map time_until_starting_line_race (rows f)).

Definition __interpolate_time_until_starting_line_race : M unit :=
  getitem "time_until_starting_line_race" ;;
  f <- get_self ;;
  match Series_interpolate (reindexed_series f) with
  | None => raise dfitpack_error
  | Some values =>
      update_self (fun f =>
        assign_column "time_until_starting_line_race"
          set_time_until_starting_line_race values f)
  end.

End Interpolation.

(** *** Step 4: the position of every driver after every lap *)

(** One turn of the loop over the lap columns. *)
Definition rank_lap (df : list LapRow) (col : nat) : list LapRow :=
  let sorted := quicksort (on (time_at col) (ascending Qcompare)) df in
  map (fun ri =>
         let r := fst ri in
         add_Lap (if isna (time_at col r) then None else Some (snd ri)) r)
      (combine sorted (range1 (List.length sorted))).

Definition rank_laps (cols : list nat) (df : list LapRow) : list LapRow :=
  fold_left rank_lap cols df.

(** [pd.concat] of the column of the times to the line with the frame of
    the lap times raises [ValueError] when no row is left: an empty series
    and an empty frame do not go together. *)
Definition __calc_lap_positions : M unit :=
  getitems ["lap_times_race"; "name"; "time_until_starting_line_race";
            "lap_times_race"; "starting_position_race";
            "end_position_race"] ;;
  f <- get_self ;;
  match with_lap_times (rows f) with
  | [] => raise ValueError
  | _ :: _ =>
      let cols := lap_columns (rows f) in
      let col_pos_last_lap := last cols 0 in
      let df := rank_laps cols (lap_frame (rows f)) in
      check_last_lap col_pos_last_lap df ;;
      let df := quicksort (on l_end_position_race (ascending Nat.compare))
                  df in
      let df := map (fun r => set_Lap col_pos_last_lap
                                (l_end_position_race r) r) df in
      let df_lap_table := lap_table df in
      update_self (fun f =>
        assign_column "lap_positions_race" set_lap_positions_race
          (map (fun _ => None) (rows f)) f) ;;
      update_self (fun f =>
        {| rows := store_lap_positions df_lap_table (rows f);
           columns := columns f |})
  end.

(** *** The pipeline and the view *)

Section Pipeline.

Variable spline : list (nat * Q) -> nat -> option Q.

Definition _run_result_calculations : M unit :=
  __calc_starting_position ;;
  __calc_race_position ;;
  __interpolate_time_until_starting_line_race spline ;;
  __calc_lap_positions.

End Pipeline.

(** The frame [lap_position_table] returns is the transpose of [df]: it has
    one column per driver, labelled with the name, which is a row of [df].
    It is represented by the labels and [df]. *)
Definition lap_position_table : M (list string * DataFrame) :=
  f <- get_self ;;
  (if has_column "lap_positions_race" f
   then ret tt
   else __calc_lap_positions ;; print WARNING_lap_position_table) ;;
  getitem "lap_positions_race" ;;
  f <- get_self ;;
  df <- pd_DataFrame (map lap_positions_race (rows f)) ;;
  getitem "name" ;;
  f <- get_self ;;
  ret (map name (rows f), df).

(** ** The table before the pipeline *)

(** The columns [_run_result_calculations] documents as available when no
    qualifying header file was given. *)
Definition race_columns : list string :=
  ["fastest_lap_time_race"; "lap_time_penalties_race"; "lap_times_race";
   "metres_driven_race"; "num_laps_driven_race"; "num_laps_led_race";
   "time_until_starting_line_race"; "total_time_race";
   "car"; "colors"; "is_ai"; "name"; "platform"; "vehicle_colors"].

Definition quali_columns : list string :=
  ["fastest_lap_time_quali"; "lap_time_penalties_quali"; "lap_times_quali";
   "metres_driven_quali"; "num_laps_driven_quali"; "num_laps_led_quali";
   "time_until_starting_line_quali"; "total_time_quali"].

(** Modelled from the spec: the construction of the table from the result
    records is not part of [Result.py]. A driver's row holds the fields of
    the race record under the suffix [_race] and, when there is one, the
    fastest lap of the qualifying record; the row label is the driver id. *)
Definition row_of (driver : string) (race : Result.t)
    (quali : option Result.t) : Row :=
  {| index := Result.driver_id race;
     name := driver;
     total_time_race := Result.total_time race;
     lap_times_race := Some (Result.lap_times race);
     num_laps_driven_race := Result.num_laps_driven race;
     time_until_starting_line_race := Result.time_until_starting_line race;
     fastest_lap_time_quali :=
       match quali with
       | Some q => Result.fastest_lap_time q
       | None => None
       end;
     starting_position_race := None;
     end_position_race := None;
     lap_positions_race := None |}.

Definition race_row (driver : string) (res : Result.raw) : Row :=
  row_of driver (Result.assign_individual_properties res) None.

Definition race_frame (rs : list Row) : RaceResultsDataFrame :=
  {| rows := rs; columns := race_columns |}.

Definition run {A : Type} (m : M A) (f : RaceResultsDataFrame) : Outcome A :=
  m {| self := f; stdout := [] |}.

(** ** Vocabulary of the statements *)

(** [x] and [y] have the same sort key. *)
Definition tied {A : Type} (cmp : A -> A -> comparison) (x y : A) : bool :=
  match cmp x y with
  | Eq => true
  | _ => false
  end.

(** A value that may stand before another in ascending order, missing
    values last. *)
Definition not_after (x y : option Q) : Prop :=
  match x, y with
  | Some a, Some b => (a <= b)%Q
  | None, Some _ => False
  | _, None => True
  end.

(** The same value, or both missing. *)
Definition same_value (x y : option Q) : bool :=
  match x, y with
  | Some a, Some b => Qeq_bool a b
  | None, None => true
  | _, _ => false
  end.

(** No two rows of the list have the same sort key. *)
Fixpoint no_ties {A : Type} (cmp : A -> A -> comparison) (l : list A) : bool :=
  match l with
  | [] => true
  | a :: l' => forallb (fun b => negb (tied cmp a b)) l' && no_ties cmp l'
  end.

(** [r] has the qualifying lap and the time to the line of [x]. *)
Definition same_grid_keys (x r : Row) : bool :=
  same_value (fastest_lap_time_quali x) (fastest_lap_time_quali r) &&
  same_value (time_until_starting_line_race x)
             (time_until_starting_line_race r).

(** A row without its derived grid slot. *)
Definition ungrid : Row -> Row := set_starting_position_race None.

(** The number of laps of the race: the laps of whoever drove most. *)
Definition total_laps (rs : list Row) : nat :=
  width (map snd (with_lap_times rs)).

(** *** The frame after each of the first three steps *)

Definition assigned {T V : Type} (set : V -> T -> T)
    (rs : list T) (vs : list V) : list T :=
  map (fun rv => set (snd rv) (fst rv)) (combine rs vs).

Definition starting_key (f : RaceResultsDataFrame)
    : Row -> Row -> comparison :=
  if has_quali_data f
  then by_quali_then_starting_line
  else by_time_until_starting_line_race.

(** The rows in the order of the grid. *)
Definition grid_order (f : RaceResultsDataFrame) : list Row :=
  if has_quali_data f
  then sort_values by_quali_then_starting_line (rows f)
  else quicksort by_time_until_starting_line_race (rows f).

Definition with_starting_position (f : RaceResultsDataFrame)
    : RaceResultsDataFrame :=
  let g := {| rows := grid_order f; columns := columns f |} in
  assign_column "starting_position_race" set_starting_position_race
    (map Some (range1 (participants g))) g.

Definition with_end_position (f : RaceResultsDataFrame)
    : RaceResultsDataFrame :=
  let g := {| rows := sort_values by_laps_time_grid (rows f);
              columns := columns f |} in
  assign_column "end_position_race" set_end_position_race
    (map Some (range1 (participants g))) g.

Definition with_interpolated_time (spline : list (nat * Q) -> nat -> option Q)
    (f : RaceResultsDataFrame) : RaceResultsDataFrame :=
  assign_column "time_until_starting_line_race"
    set_time_until_starting_line_race
    (interpolated spline (reindexed_series f)) f.

(** The number of values of a column that are present. *)
Definition count_present (ys : list (option Q)) : nat :=
  List.length (filter (fun y => negb (isna y)) ys).

(** The columns step 3 fills without an error: those without a gap and
    those with more values than the order of the spline. *)
Definition interpolable (ys : list (option Q)) : bool :=
  (count_present ys =? List.length ys) || (order <? count_present ys).

(** *** The working frame of step 4, stage by stage *)

Definition col_pos_last_lap (rs : list Row) : nat := last (lap_columns rs) 0.

Definition ranked_frame (rs : list Row) : list LapRow :=
  rank_laps (lap_columns rs) (lap_frame rs).

Definition classified_frame (rs : list Row) : list LapRow :=
  map (fun r => set_Lap (col_pos_last_lap rs) (l_end_position_race r) r)
      (quicksort (on l_end_position_race (ascending Nat.compare))
                 (ranked_frame rs)).

(** What the consistency check prints, row by row. *)
Definition diagnostics (col : nat) (df : list LapRow) : list Output :=
  flat_map
    (fun r =>
       match nth col (l_Lap r) None with
       | None => []
       | Some found =>
           if differs found (l_end_position_race r)
           then [Calculated_position_seems_to_be_incorrect
                   (l_name r) (l_end_position_race r) found]
           else []
       end) df.

Definition with_lap_positions (f : RaceResultsDataFrame)
    : RaceResultsDataFrame :=
  let g := assign_column "lap_positions_race" set_lap_positions_race
             (map (fun _ => None) (rows f)) f in
  {| rows := store_lap_positions (lap_table (classified_frame (rows f)))
                                 (rows g);
     columns := columns g |}.

(** The frame the whole pipeline leaves. *)
Definition derived (spline : list (nat * Q) -> nat -> option Q)
    (f : RaceResultsDataFrame) : RaceResultsDataFrame :=
  with_lap_positions
    (with_interpolated_time spline
       (with_end_position (with_starting_position f))).

(** The columns the pipeline reads. *)
Definition pipeline_columns : list string :=
  ["name"; "time_until_starting_line_race"; "lap_times_race";
   "num_laps_driven_race"; "total_time_race"].

Definition ready (f : RaceResultsDataFrame) : Prop :=
  (forall c, In c pipeline_columns -> has_column c f = true) /\
  (has_quali_data f = true -> has_column "fastest_lap_time_quali" f = true).

(** The tables on which the pipeline runs through: they have the columns
    it reads, step 3 can fill the times to the line, and step 4 finds a
    driver with lap times. *)
Definition runs_through (f : RaceResultsDataFrame) : Prop :=
  ready f /\
  interpolable (map time_until_starting_line_race (rows f)) = true /\
  exists r, In r (rows f) /\ lap_times_race r <> None.

(** A working row without its "Lap" columns. *)
Definition unranked (r : LapRow) : LapRow :=
  mk_LapRow (l_index r) (l_name r) (l_time_until_starting_line_race r)
    (l_starting_position_race r) (l_end_position_race r) (l_times r) [].

(** [lr] is [lr0] with one "Lap" column more for every label of [cols];
    the cell is missing exactly where the time under that label is. *)
Definition ranked_from (cols : list nat) (lr0 lr : LapRow) : Prop :=
  unranked lr = unranked lr0 /\
  exists es,
    l_Lap lr = l_Lap lr0 ++ es /\
    Forall2 (fun col e => isna e = isna (time_at col lr0)) cols es.

(** The row of [df] that a row of [self] with lap times [l] starts as. *)
Definition starts_as (w : nat) (r : Row) (l : list Q) (lr : LapRow) : Prop :=
  l_index lr = index r /\
  l_starting_position_race lr = starting_position_race r /\
  l_end_position_race lr = end_position_race r /\
  l_times lr = cumsum (time_until_starting_line_race r :: padded w l).

(** The cells "Lap 0", ..., "Lap w" of a driver who drove the laps [l]:
    one per label, and from "Lap 1" on missing exactly after the last lap
    driven. *)
Definition lap_cells (w : nat) (l : list Q) (es : list (option nat)) : Prop :=
  List.length es = S w /\
  forall j, j < w -> isna (nth (S j) es None) = negb (j <? List.length l).

(** The list stored for a row of [self] whose "Lap" cells are [es]. *)
Definition lap_table_cells (w : nat) (r : Row) (es : list (option nat))
    : list (option nat) :=
  starting_position_race r :: skipn 1 (set_nth w (end_position_race r) es).

Definition stored_row (w : nat) (r : Row) (es : list (option nat))
    : list (option nat) :=
  bfill (lap_table_cells w r es).

(** The frame step 4 starts from. *)
Definition timed (spline : list (nat * Q) -> nat -> option Q)
    (f : RaceResultsDataFrame) : RaceResultsDataFrame :=
  with_interpolated_time spline
    (with_end_position (with_starting_position f)).

(** A row of [self] has both of its ranks. *)
Definition classified (r : Row) : Prop :=
  (exists s, starting_position_race r = Some s) /\
  (exists e, end_position_race r = Some e).

(** The three columns the classification sorts by. *)
Definition classification_key (r : Row)
    : option nat * option Q * option nat :=
  (num_laps_driven_race r, total_time_race r, starting_position_race r).

(** The series the comment of step 3 speaks of, for comparison with
    [reindexed_series]: every value under the starting position of its
    driver. *)
Definition series_by_starting_grid (f : RaceResultsDataFrame)
    : list (nat * option Q) :=
  sort_values (on fst Nat.compare)
    (map (fun r => (match starting_position_race r with
                    | Some p => p
                    | None => 0
                    end, time_until_starting_line_race r)) (rows f)).

(** A row without its time to the line. *)
Definition untimed : Row -> Row := set_time_until_starting_line_race None.

(** What the header files say of a driver, which no step writes. *)
Definition raw_data (r : Row)
    : nat * string * option Q * option (list Q) * option nat * option Q :=
  (index r, name r, total_time_race r, lap_times_race r,
   num_laps_driven_race r, fastest_lap_time_quali r).

(** A row without its list of lap positions. *)
Definition unlapped : Row -> Row := set_lap_positions_race None.

(** What the examples show of a row. *)
Definition positions (f : RaceResultsDataFrame)
    : list (string * option nat * option nat) :=
  map (fun r => (name r, starting_position_race r, end_position_race r))
      (rows f).

(** What the examples show of the lap positions. *)
Definition lap_positions (f : RaceResultsDataFrame)
    : list (string * option (list (option nat))) :=
  map (fun r => (name r, lap_positions_race r)) (rows f).

(** What the examples show of a column. *)
Definition column {B : Type} (g : Row -> B) (f : RaceResultsDataFrame)
    : list (string * B) :=
  map (fun r => (name r, g r)) (rows f).

(** The view of a table in which every driver has a list: the names, and
    the lists as the rows of [df]. *)
Definition stored_lists (f : RaceResultsDataFrame)
    : list (list (option nat)) :=
  flat_map (fun r => match lap_positions_race r with
                     | Some ps => [ps]
                     | None => []
                     end) (rows f).

(** *** Example data *)

Definition entry (id : nat) (finish : option Q) (laps : list Q) : Result.raw :=
  Result.mk_raw id finish laps (map (fun _ => 0%Q) laps) 0 0%Q.

(** Three drivers who need 1.0, 0.5 and 1.5 to reach the line. *)
Definition grid_example : RaceResultsDataFrame :=
  race_frame
    [race_row "A" (entry 1 (Some (61 # 1)%Q) [(60 # 1)%Q]);
     race_row "B" (entry 2 (Some (121 # 2)%Q) [(60 # 1)%Q]);
     race_row "C" (entry 3 (Some (123 # 2)%Q) [(60 # 1)%Q])].

(** Four drivers of whom A and B need 2 to reach the line, C and D 1. *)
Definition tied_example : RaceResultsDataFrame :=
  race_frame
    [race_row "A" (entry 1 (Some (62 # 1)%Q) [(60 # 1)%Q]);
     race_row "B" (entry 2 (Some (62 # 1)%Q) [(60 # 1)%Q]);
     race_row "C" (entry 3 (Some (61 # 1)%Q) [(60 # 1)%Q]);
     race_row "D" (entry 4 (Some (61 # 1)%Q) [(60 # 1)%Q])].

(** A race of two laps: A drives both, C only the first and is lapped, B
    does not complete a lap. *)
Definition lapped_example : RaceResultsDataFrame :=
  race_frame
    [race_row "A" (entry 1 (Some (126 # 1)%Q) [(60 # 1)%Q; (61 # 1)%Q]);
     race_row "B" (entry 2 None []);
     race_row "C" (entry 3 (Some (63 # 1)%Q) [(60 # 1)%Q])].

(** A race of two laps: A and D drive both, C only the first and is
    lapped, B does not complete a lap and has no finish time. *)
Definition empty_laps_example : RaceResultsDataFrame :=
  race_frame
    [race_row "A" (entry 1 (Some (126 # 1)%Q) [(60 # 1)%Q; (61 # 1)%Q]);
     race_row "B" (entry 2 None []);
     race_row "C" (entry 3 (Some (63 # 1)%Q) [(60 # 1)%Q]);
     race_row "D" (entry 4 (Some (132 # 1)%Q) [(62 # 1)%Q; (63 # 1)%Q])].

(** The same race, but B has no row in the race header file: the cell of
    the lap times is missing, not empty. *)
Definition absent_example : RaceResultsDataFrame :=
  race_frame
    [race_row "A" (entry 1 (Some (126 # 1)%Q) [(60 # 1)%Q; (61 # 1)%Q]);
     mk_Row 2 "B" None None None None None None None None;
     race_row "C" (entry 3 (Some (63 # 1)%Q) [(60 # 1)%Q]);
     race_row "D" (entry 4 (Some (132 # 1)%Q) [(62 # 1)%Q; (63 # 1)%Q])].

(** A race of ten laps with five drivers; the fifth drives eight laps. *)
Definition ten_lap_example : RaceResultsDataFrame :=
  race_frame
    [race_row "P1" (entry 1 (Some (605 # 1)%Q) (repeat (60 # 1)%Q 10));
     race_row "P2" (entry 2 (Some (616 # 1)%Q) (repeat (61 # 1)%Q 10));
     race_row "P3" (entry 3 (Some (627 # 1)%Q) (repeat (62 # 1)%Q 10));
     race_row "P4" (entry 4 (Some (638 # 1)%Q) (repeat (63 # 1)%Q 10));
     race_row "P5" (entry 5 (Some (569 # 1)%Q) (repeat (70 # 1)%Q 8))].

(** A drives ten laps in 600 s, B eight laps in 404 s. *)
Definition classification_example : RaceResultsDataFrame :=
  race_frame
    [race_row "A" (entry 1 (Some (600 # 1)%Q)
                     (repeat (60 # 1)%Q 9 ++ [(55 # 1)%Q]));
     race_row "B" (entry 2 (Some (404 # 1)%Q) (repeat (50 # 1)%Q 8))].

(** Four drivers on three laps; D does not finish, so its time to the line
    is missing. On the grid A, B, C, D; at the flag C, A, B, D. *)
Definition interpolation_example : RaceResultsDataFrame :=
  race_frame
    [race_row "A" (entry 1 (Some (181 # 1)%Q) (repeat (60 # 1)%Q 3));
     race_row "B" (entry 2 (Some (185 # 1)%Q) (repeat (61 # 1)%Q 3));
     race_row "C" (entry 3 (Some (177 # 1)%Q) (repeat (58 # 1)%Q 3));
     race_row "D" (entry 4 None (repeat (60 # 1)%Q 2))].

(** One routine the parameter [spline] may be: the polynomial through the
    points that are present (through three points, the parabola). *)
Definition polynomial_through (pts : list (nat * Q)) (x : nat) : option Q :=
  let q n := inject_Z (Z.of_nat n) in
  Some (fold_right
          (fun pi acc =>
             (acc + snd pi *
                    fold_right
                      (fun pj b =>
                         if fst pj =? fst pi then b
                         else (b * ((q x - q (fst pj))
                                    / (q (fst pi) - q (fst pj))))%Q)
                      1%Q pts)%Q)
          0%Q pts).

(** One routine the parameter [quicksort] may be: it sorts the rows taken
    in reverse, so that rows with equal keys change places. *)
Definition reversing_sort (A : Type) (cmp : A -> A -> comparison)
    (l : list A) : list A :=
  sort_values cmp (rev l).

(** A table with the columns of a qualifying header file. *)
Definition quali_frame (rs : list Row) : RaceResultsDataFrame :=
  {| rows := rs; columns := race_columns ++ quali_columns |}.

Definition quali_row (driver : string) (race quali : Result.raw) : Row :=
  row_of driver (Result.assign_individual_properties race)
    (Some (Result.assign_individual_properties quali)).

(** B qualifies fastest, then A; C sets no qualifying lap. *)
Definition qualifying_example : RaceResultsDataFrame :=
  quali_frame
    [quali_row "A" (entry 1 (Some (122 # 1)%Q) [(60 # 1)%Q; (60 # 1)%Q])
                   (entry 1 (Some (101 # 1)%Q) [(50 # 1)%Q; (51 # 1)%Q]);
     quali_row "B" (entry 2 (Some (123 # 1)%Q) [(60 # 1)%Q; (60 # 1)%Q])
                   (entry 2 (Some (100 # 1)%Q) [(49 # 1)%Q; (51 # 1)%Q]);
     quali_row "C" (entry 3 (Some (121 # 1)%Q) [(60 # 1)%Q; (60 # 1)%Q])
                   (entry 3 None [])].

(** * Properties *)

(** ** Comparisons *)

Section ComparatorFacts.

Context {A : Type} (cmp : A -> A -> comparison) `{!Comparator cmp}.

Lemma cmp_refl (a : A) : cmp a a = Eq.
Proof.
  pose proof (cmp_flip a a) as E.
  destruct (cmp a a); simpl in E; congruence.
Qed.

Lemma cmp_eq_right (a b c : A) : cmp a b = Eq -> cmp c a = cmp c b.
Proof.
  intros E. rewrite (cmp_flip a c), (cmp_flip b c).
  f_equal. now apply cmp_eq_left.
Qed.

Lemma cmp_gt_lt (a b : A) : cmp a b = Gt -> cmp b a = Lt.
Proof. intros E. rewrite cmp_flip, E. reflexivity. Qed.

Lemma cmp_lt_gt (a b : A) : cmp a b = Lt -> cmp b a = Gt.
Proof. intros E. rewrite cmp_flip, E. reflexivity. Qed.

Lemma leb_of_total (a b : A) :
  leb_of cmp a b = false -> leb_of cmp b a = true.
Proof.
  unfold leb_of. rewrite (cmp_flip a b).
  destruct (cmp a b); simpl; congruence.
Qed.

Lemma leb_of_trans (a b c : A) :
  leb_of cmp a b = true -> leb_of cmp b c = true -> leb_of cmp a c = true.
Proof.
  unfold leb_of. intros Hab Hbc.
  destruct (cmp a b) eqn:Eab; try discriminate.
  - rewrite (cmp_eq_left a b c Eab). exact Hbc.
  - destruct (cmp b c) eqn:Ebc; try discriminate.
    + rewrite <- (cmp_eq_right b c a Ebc), Eab. reflexivity.
    + rewrite (cmp_lt_trans a b c Eab Ebc). reflexivity.
Qed.

End ComparatorFacts.

Lemma Comparator_Qcompare : Comparator Qcompare.
Proof.
  split.
  - intros a b. symmetry. apply Qcompare_antisym.
  - intros a b c H1 H2. apply Qlt_alt in H1, H2. apply Qlt_alt.
    eapply Qlt_trans; eassumption.
  - intros a b c E. apply Qeq_alt in E. now rewrite E.
  Qed.

Lemma Comparator_Nat_compare : Comparator Nat.compare.
Proof.
  split.
  - intros a b. apply Nat.compare_antisym.
  - intros a b c H1 H2. apply Nat.compare_lt_iff in H1, H2.
    apply Nat.compare_lt_iff. lia.
  - intros a b c E. apply Nat.compare_eq_iff in E. now subst.
Qed.

Lemma Comparator_reverse {A : Type} (cmp : A -> A -> comparison)
    `{!Comparator cmp} : Comparator (fun a b => cmp b a).
Proof.
  split.
  - intros a b. apply (cmp_flip (cmp := cmp)).
  - intros a b c H1 H2. exact (cmp_lt_trans c b a H2 H1).
  - intros a b c E. apply (cmp_eq_right cmp).
    rewrite (cmp_flip (cmp := cmp)), E. reflexivity.
Qed.

Lemma Comparator_na_last {A : Type} (cmp : A -> A -> comparison)
    `{!Comparator cmp} : Comparator (na_last cmp).
Proof.
  split.
  - intros [a|] [b|]; simpl; auto. apply cmp_flip.
  - intros [a|] [b|] [c|]; simpl; try congruence. apply cmp_lt_trans.
  - intros [a|] [b|] [c|]; simpl; try congruence. apply cmp_eq_left.
Qed.

Lemma Comparator_on {A K : Type} (key : A -> K)
    (cmp : K -> K -> comparison) `{!Comparator cmp} : Comparator (on key cmp).
Proof.
  split; unfold on.
  - intros a b. apply cmp_flip.
  - intros a b c. apply cmp_lt_trans.
  - intros a b c. apply cmp_eq_left.
Qed.

Lemma Comparator_then_by {A : Type} (c1 c2 : A -> A -> comparison)
    `{!Comparator c1} `{!Comparator c2} :
  Comparator (fun a b => then_by (c1 a b) (c2 a b)).
Proof.
  split.
  - intros a b. rewrite (cmp_flip (cmp := c1) a b), (cmp_flip (cmp := c2) a b).
    destruct (c1 a b); reflexivity.
  - intros a b c. unfold then_by.
    destruct (c1 a b) eqn:E1; try discriminate;
      destruct (c1 b c) eqn:E2; try discriminate; intros H1 H2.
    + rewrite (cmp_eq_left a b c E1), E2. eapply cmp_lt_trans; eassumption.
    + rewrite (cmp_eq_left a b c E1), E2. reflexivity.
    + rewrite <- (cmp_eq_right c1 b c a E2), E1. reflexivity.
    + rewrite (cmp_lt_trans a b c E1 E2). reflexivity.
  - intros a b c. unfold then_by.
    destruct (c1 a b) eqn:E1; try discriminate. intros E2.
    rewrite (cmp_eq_left a b c E1), (cmp_eq_left a b c E2). reflexivity.
Qed.

#[export] Instance Comparator_by_time_until_starting_line_race :
  Comparator by_time_until_starting_line_race.
Proof.
  apply Comparator_on, Comparator_na_last, Comparator_Qcompare.
Qed.

#[export] Instance Comparator_by_quali_then_starting_line :
  Comparator by_quali_then_starting_line.
Proof.
  apply Comparator_then_by;
    apply Comparator_on, Comparator_na_last, Comparator_Qcompare.
Qed.

#[export] Instance Comparator_by_laps_time_grid : Comparator by_laps_time_grid.
Proof.
  apply Comparator_then_by; [|apply Comparator_then_by].
  - apply Comparator_on, Comparator_na_last, Comparator_reverse,
      Comparator_Nat_compare.
  - apply Comparator_on, Comparator_na_last, Comparator_Qcompare.
  - apply Comparator_on, Comparator_na_last, Comparator_Nat_compare.
Qed.

(** ** [sort_values] *)

Section SortValues.

Context {A : Type} (cmp : A -> A -> comparison).

Lemma insert_sorted_perm (a : A) (l : list A) :
  Permutation (insert_sorted cmp a l) (a :: l).
Proof.
  induction l as [|b l IH]; simpl.
  - apply Permutation_refl.
  - destruct (leb_of cmp a b).
    + apply Permutation_refl.
    + eapply perm_trans; [apply perm_skip, IH | apply perm_swap].
Qed.

Lemma sort_values_perm (l : list A) : Permutation (sort_values cmp l) l.
Proof.
  induction l as [|a l IH]; simpl.
  - apply perm_nil.
  - eapply perm_trans; [apply insert_sorted_perm | apply perm_skip, IH].
Qed.

Lemma sort_values_length (l : list A) :
  List.length (sort_values cmp l) = List.length l.
Proof. apply Permutation_length, sort_values_perm. Qed.

Lemma sort_values_Forall (P : A -> Prop) (l : list A) :
  Forall P l -> Forall P (sort_values cmp l).
Proof.
  intros H. eapply Permutation_Forall; [|exact H].
  apply Permutation_sym, sort_values_perm.
Qed.

Context `{!Comparator cmp}.

Lemma insert_sorted_sorted (a : A) (l : list A) :
  StronglySorted (in_order cmp) l ->
  StronglySorted (in_order cmp) (insert_sorted cmp a l).
Proof.
  induction 1 as [|b l Hs IH Hb]; simpl.
  - constructor; constructor.
  - destruct (leb_of cmp a b) eqn:E.
    + constructor; [constructor; assumption|].
      constructor; [exact E|].
      eapply Forall_impl; [|exact Hb].
      intros c Hc. eapply (leb_of_trans cmp); eassumption.
    + constructor; [exact IH|].
      eapply Permutation_Forall;
        [apply Permutation_sym, insert_sorted_perm|].
      constructor; [|exact Hb].
      now apply (leb_of_total cmp).
Qed.

Lemma sort_values_sorted (l : list A) :
  StronglySorted (in_order cmp) (sort_values cmp l).
Proof.
  induction l as [|a l IH]; simpl.
  - constructor.
  - now apply insert_sorted_sorted.
Qed.

Lemma tied_in_order (x a b : A) :
  tied cmp x a = true -> tied cmp x b = true -> leb_of cmp a b = true.
Proof.
  unfold tied, leb_of. intros Ha Hb.
  destruct (cmp x a) eqn:Ea; try discriminate.
  destruct (cmp x b) eqn:Eb; try discriminate.
  rewrite <- (cmp_eq_left x a b Ea), Eb. reflexivity.
Qed.

Lemma insert_sorted_stable (x a : A) (l : list A) :
  filter (tied cmp x) (insert_sorted cmp a l) = filter (tied cmp x) (a :: l).
Proof.
  induction l as [|b l IH]; simpl.
  - reflexivity.
  - destruct (leb_of cmp a b) eqn:E; simpl.
    + reflexivity.
    + simpl in IH. rewrite IH.
      destruct (tied cmp x a) eqn:Ta, (tied cmp x b) eqn:Tb; try reflexivity.
      rewrite (tied_in_order x a b Ta Tb) in E. discriminate.
Qed.

(** Rows that tie keep the order of the input. *)
Lemma sort_values_stable (x : A) (l : list A) :
  filter (tied cmp x) (sort_values cmp l) = filter (tied cmp x) l.
Proof.
  induction l as [|a l IH]; simpl.
  - reflexivity.
  - rewrite insert_sorted_stable. simpl. now rewrite IH.
Qed.

End SortValues.

(** ** Ranks written along the rows *)

Section Ranked.

Context {A : Type} (rank : A -> option nat).

Lemma ranked_bounds (l : list A) (k : nat) (a : A) (p : nat) :
  map rank l = map Some (seq k (List.length l)) ->
  In a l -> rank a = Some p -> k <= p < k + List.length l.
Proof.
  revert k. induction l as [|x l IH]; intros k E Ha Hp; simpl in *.
  - contradiction.
  - injection E as Ex El. destruct Ha as [->|Ha].
    + rewrite Hp in Ex. injection Ex as ->. lia.
    + specialize (IH (S k) El Ha Hp). lia.
Qed.

Context (R : A -> A -> Prop).

(** In a sorted list ranked 1, 2, ..., a smaller rank means "in order". *)
Lemma ranked_in_order (l : list A) (k : nat) (a b : A) (pa pb : nat) :
  map rank l = map Some (seq k (List.length l)) ->
  StronglySorted R l ->
  In a l -> In b l -> rank a = Some pa -> rank b = Some pb ->
  pa < pb -> R a b.
Proof.
  revert k. induction l as [|x l IH]; intros k E Hs Ha Hb Hpa Hpb Hlt.
  - contradiction.
  - simpl in E. injection E as Ex El.
    apply StronglySorted_inv in Hs. destruct Hs as [Hs Hx].
    destruct Ha as [->|Ha], Hb as [->|Hb].
    + rewrite Hpa in Hpb. injection Hpb as ->. lia.
    + rewrite Forall_forall in Hx. now apply Hx.
    + pose proof (ranked_bounds l (S k) a pa El Ha Hpa).
      rewrite Hpb in Ex. injection Ex as ->. lia.
    + eapply IH; eassumption.
Qed.

Lemma ranked_same (l : list A) (k : nat) (a b : A) (p : nat) :
  map rank l = map Some (seq k (List.length l)) ->
  In a l -> In b l -> rank a = Some p -> rank b = Some p -> a = b.
Proof.
  revert k. induction l as [|x l IH]; intros k E Ha Hb Hpa Hpb.
  - contradiction.
  - simpl in E. injection E as Ex El.
    destruct Ha as [->|Ha], Hb as [->|Hb].
    + reflexivity.
    + pose proof (ranked_bounds l (S k) b p El Hb Hpb).
      rewrite Hpa in Ex. injection Ex as ->. lia.
    + pose proof (ranked_bounds l (S k) a p El Ha Hpa).
      rewrite Hpb in Ex. injection Ex as ->. lia.
    + eapply IH; eassumption.
Qed.

End Ranked.

(** ** [quicksort] *)

Lemma quicksort_length {A : Type} (cmp : A -> A -> comparison) (l : list A) :
  List.length (quicksort cmp l) = List.length l.
Proof. apply Permutation_length, quicksort_Permutation. Qed.

Lemma quicksort_In {A : Type} (cmp : A -> A -> comparison) (l : list A)
    (a : A) :
  In a (quicksort cmp l) <-> In a l.
Proof.
  split; apply Permutation_in.
  - apply quicksort_Permutation.
  - apply Permutation_sym, quicksort_Permutation.
Qed.

Section Unique.

Context {A : Type} (cmp : A -> A -> comparison) `{!Comparator cmp}.

Lemma in_order_both (a b : A) :
  in_order cmp a b -> in_order cmp b a -> cmp a b = Eq.
Proof.
  unfold in_order, leb_of. rewrite (cmp_flip a b).
  destruct (cmp a b); simpl; congruence.
Qed.

Lemma sorted_head (a b : A) (l : list A) :
  StronglySorted (in_order cmp) (a :: l) -> In b (a :: l) ->
  in_order cmp a b.
Proof.
  intros Hs [<-|Hb].
  - unfold in_order, leb_of. now rewrite (cmp_refl cmp).
  - apply StronglySorted_inv in Hs. destruct Hs as [_ Ha].
    rewrite Forall_forall in Ha. now apply Ha.
Qed.

(** Rows no two of which tie have one sorted order only. *)
Lemma sorted_unique (l1 : list A) :
  forall l2,
    Permutation l1 l2 ->
    StronglySorted (in_order cmp) l1 ->
    StronglySorted (in_order cmp) l2 ->
    (forall a b, In a l1 -> In b l1 -> cmp a b = Eq -> a = b) ->
    l1 = l2.
Proof.
  induction l1 as [|a l1 IH]; intros l2 Hp H1 H2 Hties.
  - apply Permutation_nil in Hp. now subst.
  - destruct l2 as [|b l2].
    + apply Permutation_sym, Permutation_nil in Hp. discriminate.
    + assert (Hb : In b (a :: l1)).
      { eapply Permutation_in; [apply Permutation_sym, Hp | now left]. }
      assert (Ha : In a (b :: l2)).
      { eapply Permutation_in; [exact Hp | now left]. }
      assert (E : a = b).
      { apply Hties; [now left | exact Hb |].
        apply in_order_both.
        - eapply sorted_head; eassumption.
        - eapply sorted_head; eassumption. }
      subst b. f_equal. apply IH.
      * eapply Permutation_cons_inv. exact Hp.
      * now apply StronglySorted_inv in H1.
      * now apply StronglySorted_inv in H2.
      * intros x y Hx Hy. apply Hties; now right.
Qed.

Lemma no_ties_spec (l : list A) :
  no_ties cmp l = true ->
  forall a b, In a l -> In b l -> cmp a b = Eq -> a = b.
Proof.
  induction l as [|x l IH]; intros H a b Ha Hb E; [contradiction|].
  simpl in H. apply andb_prop in H. destruct H as [Hx Hl].
  rewrite forallb_forall in Hx.
  assert (Hno : forall y, In y l -> cmp x y <> Eq).
  { intros y Hy Exy. specialize (Hx y Hy). unfold tied in Hx.
    rewrite Exy in Hx. discriminate. }
  destruct Ha as [<-|Ha], Hb as [<-|Hb].
  - reflexivity.
  - destruct (Hno b Hb E).
  - exfalso. apply (Hno a Ha). rewrite cmp_flip, E. reflexivity.
  - now apply IH.
Qed.

End Unique.

Lemma quicksort_no_ties {A : Type} (cmp : A -> A -> comparison)
    `{!Comparator cmp} (l : list A) :
  no_ties cmp l = true -> quicksort cmp l = sort_values cmp l.
Proof.
  intros H. apply (sorted_unique cmp).
  - eapply perm_trans; [apply quicksort_Permutation|].
    apply Permutation_sym, sort_values_perm.
  - now apply quicksort_StronglySorted.
  - now apply sort_values_sorted.
  - intros a b Ha Hb. apply quicksort_In in Ha, Hb.
    now apply (no_ties_spec cmp l).
Qed.

(** ** class Result *)

(** C10. A raw result record whose [finishTime] is zero, or absent, gets no
    [time_until_starting_line]: a finish time of zero is read as "did not
    finish", like a missing one, and not as a duration. *)
Theorem zero_finish_time_gives_no_time_until_starting_line
    (res : Result.raw) :
  (Result.finishTime res = None \/
   exists q, Result.finishTime res = Some q /\ (q == 0)%Q) ->
  Result.time_until_starting_line (Result.assign_individual_properties res)
  = None.
Proof.
  intros [E|[q [E Hq]]]; unfold Result.assign_individual_properties; simpl;
    rewrite E; simpl.
  - reflexivity.
  - apply Qeq_bool_iff in Hq. rewrite Hq. reflexivity.
Qed.

Lemma zero_finish_time_gives_no_time_until_starting_line_witness :
  Result.time_until_starting_line
    (Result.assign_individual_properties
       (entry 7 (Some (0 # 1)%Q) [(60 # 1)%Q; (59 # 1)%Q]))
  = None.
Proof.
  apply zero_finish_time_gives_no_time_until_starting_line.
  right. exists (0 # 1)%Q. split; reflexivity.
Defined.

(** ** Assigning a column *)

Section AssignColumn.

Context {T V : Type} (set : V -> T -> T).

Lemma assigned_length (rs : list T) (vs : list V) :
  List.length vs = List.length rs ->
  List.length (assigned set rs vs) = List.length rs.
Proof.
  intros E. unfold assigned.
  rewrite length_map, length_combine, E. apply Nat.min_id.
Qed.

Lemma assigned_other {B : Type} (g : T -> B) (rs : list T) :
  (forall v r, g (set v r) = g r) ->
  forall vs, List.length vs = List.length rs ->
  map g (assigned set rs vs) = map g rs.
Proof.
  intros Hg. induction rs as [|r rs IH]; intros [|v vs] E;
    simpl in *; try discriminate; try reflexivity.
  rewrite Hg. f_equal. apply IH. lia.
Qed.

Lemma assigned_this {B : Type} (g : T -> B) (h : V -> B)
    (rs : list T) :
  (forall v r, g (set v r) = h v) ->
  forall vs, List.length vs = List.length rs ->
  map g (assigned set rs vs) = map h vs.
Proof.
  intros Hg. induction rs as [|r rs IH]; intros [|v vs] E;
    simpl in *; try discriminate; try reflexivity.
  rewrite Hg. f_equal. apply IH. lia.
Qed.

Lemma assigned_In (rs : list T) (vs : list V) (r' : T) :
  In r' (assigned set rs vs) -> exists r v, In r rs /\ r' = set v r.
Proof.
  unfold assigned. intros H. apply in_map_iff in H.
  destruct H as [[r v] [E H]]. apply in_combine_l in H.
  exists r, v. split; [exact H | now rewrite <- E].
Qed.

Lemma assigned_sorted (R : T -> T -> Prop) (rs : list T) :
  (forall v w a b, R a b -> R (set v a) (set w b)) ->
  StronglySorted R rs ->
  forall vs, StronglySorted R (assigned set rs vs).
Proof.
  intros HR. induction 1 as [|r rs Hs IH Hr]; intros vs.
  - constructor.
  - destruct vs as [|v vs]; [constructor|].
    change (assigned set (r :: rs) (v :: vs))
      with (set v r :: assigned set rs vs).
    constructor; [apply IH|].
    apply Forall_forall. intros r' Hin.
    apply assigned_In in Hin. destruct Hin as [b [w [Hb ->]]].
    apply HR. rewrite Forall_forall in Hr. now apply Hr.
Qed.

End AssignColumn.

Lemma assign_column_rows {V : Type} (c : string) (set : V -> Row -> Row)
    (vs : list V) (f : RaceResultsDataFrame) :
  rows (assign_column c set vs f) = assigned set (rows f) vs.
Proof. reflexivity. Qed.

Lemma length_map_range1 (n : nat) :
  List.length (map (@Some nat) (range1 n)) = n.
Proof. unfold range1. now rewrite length_map, length_seq. Qed.



(** ** class Result: the derived fields *)

Lemma min_from_spec (l : list Q) :
  forall x,
    In (min_from x l) (x :: l) /\
    forall y, In y (x :: l) -> (min_from x l <= y)%Q.
Proof.
  unfold min_from. induction l as [|z l IH]; intros x; simpl.
  - split; [now left|]. intros y [<-|[]]. apply Qle_refl.
  - destruct (Qle_bool x z) eqn:E.
    + apply Qle_bool_iff in E. destruct (IH x) as [Hin Hle]. split.
      * destruct Hin as [Hin|Hin]; [now left | now right; right].
      * intros y [<-|[<-|Hy]].
        -- apply Hle. now left.
        -- eapply Qle_trans; [apply Hle; now left | exact E].
        -- apply Hle. now right.
    + assert (Hlt : (z < x)%Q).
      { apply Qnot_le_lt. intros H. apply Qle_bool_iff in H. congruence. }
      destruct (IH z) as [Hin Hle]. split.
      * right. exact Hin.
      * intros y [<-|[<-|Hy]].
        -- eapply Qle_trans; [apply Hle; now left | now apply Qlt_le_weak].
        -- apply Hle. now left.
        -- apply Hle. now right.
Qed.

(** X1. [fastest_lap_time] is the smallest recorded lap time: it is one of
    the driver's lap times and no lap time is below it; it is missing when
    there is no lap time. *)
Theorem fastest_lap_time_is_the_minimum (res : Result.raw) :
  match Result.fastest_lap_time (Result.assign_individual_properties res) with
  | Some m =>
      In m (Result.lapTimes res) /\
      forall y, In y (Result.lapTimes res) -> (m <= y)%Q
  | None => Result.lapTimes res = []
  end.
Proof.
  unfold Result.assign_individual_properties. simpl.
  destruct (Result.lapTimes res) as [|x l]; [reflexivity|].
  simpl. apply min_from_spec.
Qed.

(** X2. [num_laps_driven] is the number of lap times when there is at
    least one, and missing, never zero, when there is none; it is missing
    exactly when [fastest_lap_time] is. *)
Theorem num_laps_driven_counts_the_laps (res : Result.raw) :
  let r := Result.assign_individual_properties res in
  (Result.lapTimes res = [] ->
   Result.num_laps_driven r = None /\ Result.fastest_lap_time r = None) /\
  (Result.lapTimes res <> [] ->
   Result.num_laps_driven r = Some (List.length (Result.lapTimes res)) /\
   1 <= List.length (Result.lapTimes res) /\
   exists m, Result.fastest_lap_time r = Some m) /\
  Result.num_laps_driven r <> Some 0.
Proof.
  unfold Result.assign_individual_properties. simpl.
  destruct (Result.lapTimes res) as [|x l]; simpl.
  - split; [auto|]. split; [congruence | discriminate].
  - split; [discriminate|]. split; [|discriminate].
    intros _. split; [reflexivity|]. split; [lia|]. eexists. reflexivity.
Qed.

(** ** Step 1: the starting grid *)

Lemma has_column_assign_column {V : Type} (c c' : string)
    (set : V -> Row -> Row) (vs : list V) (f : RaceResultsDataFrame) :
  has_column c' f = true -> has_column c' (assign_column c set vs f) = true.
Proof.
  intros H. unfold assign_column.
  destruct (has_column c f); unfold has_column in *; simpl; [exact H|].
  rewrite existsb_app, H. reflexivity.
Qed.

Lemma has_column_assign_column_same {V : Type} (c : string)
    (set : V -> Row -> Row) (vs : list V) (f : RaceResultsDataFrame) :
  has_column c (assign_column c set vs f) = true.
Proof.
  unfold assign_column.
  destruct (has_column c f) eqn:E; unfold has_column in *; simpl;
    [exact E|].
  rewrite existsb_app. simpl. rewrite String.eqb_refl.
  now rewrite orb_true_r.
Qed.

#[export] Instance Comparator_starting_key (f : RaceResultsDataFrame) :
  Comparator (starting_key f).
Proof.
  unfold starting_key. destruct (has_quali_data f).
  - apply Comparator_by_quali_then_starting_line.
  - apply Comparator_by_time_until_starting_line_race.
Qed.

Lemma grid_order_perm (f : RaceResultsDataFrame) :
  Permutation (grid_order f) (rows f).
Proof.
  unfold grid_order. destruct (has_quali_data f).
  - apply sort_values_perm.
  - apply quicksort_Permutation.
Qed.

Lemma grid_order_length (f : RaceResultsDataFrame) :
  List.length (grid_order f) = participants f.
Proof. apply Permutation_length, grid_order_perm. Qed.

Lemma grid_order_sorted (f : RaceResultsDataFrame) :
  StronglySorted (in_order (starting_key f)) (grid_order f).
Proof.
  unfold grid_order, starting_key. destruct (has_quali_data f).
  - apply sort_values_sorted, Comparator_by_quali_then_starting_line.
  - apply quicksort_StronglySorted,
      Comparator_by_time_until_starting_line_race.
Qed.

Lemma calc_starting_position_returns (w : World) :
  has_column "time_until_starting_line_race" (self w) = true ->
  (has_quali_data (self w) = true ->
   has_column "fastest_lap_time_quali" (self w) = true) ->
  __calc_starting_position w
  = Returned tt {| self := with_starting_position (self w);
                   stdout := stdout w |}.
Proof.
  intros Ht Hq.
  unfold __calc_starting_position, with_starting_position, grid_order,
    sort_values_inplace, bind, get_self, update_self, getitems, getitem,
    bind, get_self, ret, raise.
  destruct (has_quali_data (self w)); simpl.
  - rewrite (Hq eq_refl), Ht. reflexivity.
  - rewrite Ht. reflexivity.
Qed.

Lemma with_starting_position_rows (f : RaceResultsDataFrame) :
  rows (with_starting_position f)
  = assigned set_starting_position_race (grid_order f)
      (map Some (range1 (participants f))).
Proof.
  unfold with_starting_position, participants. simpl.
  now rewrite grid_order_length.
Qed.

Lemma starting_key_ungrid (f : RaceResultsDataFrame) (v w : option nat)
    (a b : Row) :
  starting_key f (set_starting_position_race v a)
                 (set_starting_position_race w b)
  = starting_key f a b.
Proof. unfold starting_key. destruct (has_quali_data f); reflexivity. Qed.

Lemma filter_map {A B : Type} (g : A -> B) (p : B -> bool) (l : list A) :
  filter p (map g l) = map g (filter (fun a => p (g a)) l).
Proof.
  induction l as [|a l IH]; simpl; [reflexivity|].
  destruct (p (g a)); simpl; now rewrite IH.
Qed.

Lemma with_starting_position_length (f : RaceResultsDataFrame) :
  participants (with_starting_position f) = participants f.
Proof.
  unfold participants at 1. rewrite with_starting_position_rows.
  rewrite assigned_length; [apply grid_order_length|].
  now rewrite length_map_range1, grid_order_length.
Qed.

Lemma with_starting_position_ranks (f : RaceResultsDataFrame) :
  map starting_position_race (rows (with_starting_position f))
  = map Some (seq 1 (participants f)).
Proof.
  rewrite with_starting_position_rows.
  rewrite (assigned_this set_starting_position_race
             starting_position_race (fun v => v)).
  - apply map_id.
  - reflexivity.
  - now rewrite length_map_range1, grid_order_length.
Qed.

Lemma with_starting_position_sorted (f : RaceResultsDataFrame) :
  StronglySorted (in_order (starting_key f))
                 (rows (with_starting_position f)).
Proof.
  rewrite with_starting_position_rows. apply assigned_sorted.
  - intros v w a b. unfold in_order, leb_of.
    now rewrite starting_key_ungrid.
  - apply grid_order_sorted.
Qed.

Lemma with_starting_position_other {B : Type} (g : Row -> B)
    (f : RaceResultsDataFrame) :
  (forall v r, g (set_starting_position_race v r) = g r) ->
  map g (rows (with_starting_position f)) = map g (grid_order f).
Proof.
  intros Hg. rewrite with_starting_position_rows.
  apply assigned_other; [exact Hg|].
  now rewrite length_map_range1, grid_order_length.
Qed.

Lemma ranks_follow_order {A : Type} (cmp : A -> A -> comparison)
    `{!Comparator cmp} (rank : A -> option nat) (l : list A) (n : nat) :
  map rank l = map Some (seq 1 n) ->
  StronglySorted (in_order cmp) l ->
  forall a b pa pb,
    In a l -> In b l -> rank a = Some pa -> rank b = Some pb ->
    (pa < pb -> in_order cmp a b) /\ (cmp a b = Lt -> pa < pb).
Proof.
  intros E Hs a b pa pb Ha Hb Hpa Hpb.
  assert (Hn : List.length l = n).
  { apply (f_equal (@List.length _)) in E.
    now rewrite !length_map, length_seq in E. }
  rewrite <- Hn in E.
  split.
  - intros Hlt. eapply (ranked_in_order rank); eassumption.
  - intros Hab.
    destruct (Nat.lt_total pa pb) as [Hlt|[Heq|Hgt]]; [exact Hlt| |].
    + subst pb.
      assert (a = b) by (eapply (ranked_same rank); eassumption).
      subst b. rewrite (cmp_refl cmp) in Hab. discriminate.
    + assert (Hba : in_order cmp b a)
        by (eapply (ranked_in_order rank); eassumption).
      unfold in_order, leb_of in Hba.
      rewrite (cmp_lt_gt cmp a b Hab) in Hba. discriminate.
Qed.

(** *** The order of the keys in plain terms *)

Lemma Qcompare_Lt (x y : Q) : (x < y)%Q -> (x ?= y)%Q = Lt.
Proof. intros H. now apply Qlt_alt. Qed.

Lemma Qcompare_Eq (x y : Q) : (x == y)%Q -> (x ?= y)%Q = Eq.
Proof. intros H. now apply Qeq_alt. Qed.

Lemma in_order_ascending_Q (x y : option Q) :
  in_order (ascending Qcompare) x y -> not_after x y.
Proof.
  unfold in_order, leb_of, ascending, na_last, not_after.
  destruct x as [a|], y as [b|]; try easy.
  intros H. apply Qle_alt. intros E. rewrite E in H. discriminate.
Qed.

Lemma tied_ascending_Q (x y : option Q) :
  tied (ascending Qcompare) x y = same_value x y.
Proof.
  unfold tied, ascending, na_last, same_value.
  destruct x as [a|], y as [b|]; try reflexivity.
  destruct (Qeq_bool a b) eqn:E.
  - apply Qeq_bool_iff in E. now rewrite (Qcompare_Eq a b E).
  - destruct (a ?= b)%Q eqn:C; try reflexivity.
    apply Qeq_alt, Qeq_bool_iff in C. congruence.
Qed.

Lemma tied_by_quali (x r : Row) :
  tied by_quali_then_starting_line x r = same_grid_keys x r.
Proof.
  unfold same_grid_keys. rewrite <- !tied_ascending_Q.
  unfold tied, by_quali_then_starting_line, on, then_by.
  destruct (ascending Qcompare (fastest_lap_time_quali x)
                               (fastest_lap_time_quali r)); reflexivity.
Qed.

Lemma in_order_by_quali (a b : Row) :
  in_order by_quali_then_starting_line a b ->
  match fastest_lap_time_quali a, fastest_lap_time_quali b with
  | Some x, Some y =>
      (x < y)%Q \/
      ((x == y)%Q /\
       not_after (time_until_starting_line_race a)
                 (time_until_starting_line_race b))
  | None, Some _ => False
  | Some _, None => True
  | None, None =>
      not_after (time_until_starting_line_race a)
                (time_until_starting_line_race b)
  end.
Proof.
  unfold in_order, leb_of, by_quali_then_starting_line, on, then_by.
  destruct (fastest_lap_time_quali a) as [x|],
           (fastest_lap_time_quali b) as [y|]; simpl; try easy.
  - destruct (x ?= y)%Q eqn:C; intros H.
    + right. split; [now apply Qeq_alt|].
      now apply in_order_ascending_Q.
    + left. now apply Qlt_alt.
    + discriminate.
  - apply in_order_ascending_Q.
Qed.

(** C3, as the code has it. The starting positions are the ranks 1..N of
    the drivers, no rank given twice. Without qualifying data they follow
    the ascending order of [time_until_starting_line_race], drivers
    without a value last; nothing is said of the order among drivers with
    the same value, which the sort by one key does not fix. With
    qualifying data they follow the ascending order of
    [fastest_lap_time_quali], then of [time_until_starting_line_race],
    and drivers equal in both keep the order they had in the table. *)
Theorem starting_position_ranks_drivers
    (f : RaceResultsDataFrame) (out : list Output) :
  has_column "time_until_starting_line_race" f = true ->
  (has_quali_data f = true -> has_column "fastest_lap_time_quali" f = true) ->
  exists f',
    __calc_starting_position {| self := f; stdout := out |}
    = Returned tt {| self := f'; stdout := out |} /\
    map starting_position_race (rows f')
    = map Some (seq 1 (participants f)) /\
    Permutation (map ungrid (rows f')) (map ungrid (rows f)) /\
    (forall a b pa pb,
        In a (rows f') -> In b (rows f') ->
        starting_position_race a = Some pa ->
        starting_position_race b = Some pb ->
        pa < pb ->
        if has_quali_data f
        then match fastest_lap_time_quali a, fastest_lap_time_quali b with
             | Some x, Some y =>
                 (x < y)%Q \/
                 ((x == y)%Q /\
                  not_after (time_until_starting_line_race a)
                            (time_until_starting_line_race b))
             | None, Some _ => False
             | Some _, None => True
             | None, None =>
                 not_after (time_until_starting_line_race a)
                           (time_until_starting_line_race b)
             end
        else not_after (time_until_starting_line_race a)
                       (time_until_starting_line_race b)) /\
    (has_quali_data f = true ->
     forall x,
       filter (same_grid_keys x) (map ungrid (rows f'))
       = filter (same_grid_keys x) (map ungrid (rows f))).
Proof.
  intros Ht Hq.
  exists (with_starting_position f).
  assert (Hungrid : map ungrid (rows (with_starting_position f))
                    = map ungrid (grid_order f)).
  { apply with_starting_position_other. reflexivity. }
  split; [|split; [|split; [|split]]].
  - apply (calc_starting_position_returns {| self := f; stdout := out |});
      assumption.
  - apply with_starting_position_ranks.
  - rewrite Hungrid. apply Permutation_map, grid_order_perm.
  - intros a b pa pb Ha Hb Hpa Hpb Hlt.
    pose proof (ranks_follow_order (starting_key f) starting_position_race
                  (rows (with_starting_position f)) (participants f)
                  (with_starting_position_ranks f)
                  (with_starting_position_sorted f)
                  a b pa pb Ha Hb Hpa Hpb) as [Hord _].
    specialize (Hord Hlt). unfold starting_key in Hord.
    destruct (has_quali_data f).
    + now apply in_order_by_quali.
    + now apply in_order_ascending_Q.
  - intros Hquali x. rewrite Hungrid, !filter_map. f_equal.
    unfold grid_order. rewrite Hquali.
    assert (E : forall l,
               filter (fun a => same_grid_keys x (ungrid a)) l
               = filter (tied by_quali_then_starting_line x) l).
    { intros l. apply filter_ext. intros r. now rewrite tied_by_quali. }
    rewrite !E.
    apply sort_values_stable, Comparator_by_quali_then_starting_line.
Qed.

(** ** The steps as functions of the frame *)

Lemma bind_returns {A B : Type} (m : M A) (k : A -> M B) (w w' : World)
    (a : A) :
  m w = Returned a w' -> bind m k w = k a w'.
Proof. intros H. unfold bind. now rewrite H. Qed.

Lemma bind_raises {A B : Type} (m : M A) (k : A -> M B) (w : World)
    (e : Exception) :
  m w = Raised e -> bind m k w = Raised e.
Proof. intros H. unfold bind. now rewrite H. Qed.

Lemma calc_race_position_returns (w : World) :
  has_column "num_laps_driven_race" (self w) = true ->
  has_column "total_time_race" (self w) = true ->
  has_column "starting_position_race" (self w) = true ->
  __calc_race_position w
  = Returned tt {| self := with_end_position (self w); stdout := stdout w |}.
Proof.
  intros H1 H2 H3.
  unfold __calc_race_position, with_end_position, sort_values_inplace, bind,
    get_self, update_self, getitems, getitem, bind, get_self, ret, raise.
  simpl. rewrite H1, H2, H3. reflexivity.
Qed.

(** *** Step 3 *)

Lemma present_points_length (ys : list (option Q)) :
  forall xs : list nat,
    List.length xs = List.length ys ->
    List.length (present_points (combine xs ys)) = count_present ys.
Proof.
  unfold count_present.
  induction ys as [|y ys IH]; intros [|x xs] E; try discriminate;
    [reflexivity|].
  simpl in E. injection E as E. specialize (IH xs E).
  destruct y; simpl; now rewrite <- IH.
Qed.

Lemma count_present_Permutation (ys ys' : list (option Q)) :
  Permutation ys ys' -> count_present ys = count_present ys'.
Proof.
  unfold count_present. induction 1 as [|x l l' _ IH|x y l|l l' l'' _ IH1 _ IH2].
  - reflexivity.
  - simpl. destruct (negb (isna x)); simpl; now rewrite IH.
  - simpl. destruct (negb (isna x)), (negb (isna y)); reflexivity.
  - congruence.
Qed.

Lemma interpolable_Permutation (ys ys' : list (option Q)) :
  Permutation ys ys' -> interpolable ys = interpolable ys'.
Proof.
  intros H. unfold interpolable.
  now rewrite (count_present_Permutation _ _ H), (Permutation_length H).
Qed.

Lemma reindexed_series_length (f : RaceResultsDataFrame) :
  List.length (reindexed_series f) = List.length (rows f).
Proof.
  unfold reindexed_series, range1, participants.
  rewrite length_combine, length_seq, length_map. apply Nat.min_id.
Qed.

Lemma reindexed_series_points (f : RaceResultsDataFrame) :
  List.length (present_points (reindexed_series f))
  = count_present (map time_until_starting_line_race (rows f)).
Proof.
  unfold reindexed_series. apply present_points_length.
  unfold range1, participants. now rewrite length_seq, length_map.
Qed.

Lemma Series_interpolate_fits (spline : list (nat * Q) -> nat -> option Q)
    (f : RaceResultsDataFrame) :
  interpolable (map time_until_starting_line_race (rows f)) = true ->
  Series_interpolate spline (reindexed_series f)
  = Some (interpolated spline (reindexed_series f)).
Proof.
  intros H. unfold Series_interpolate.
  rewrite reindexed_series_points, reindexed_series_length.
  unfold interpolable in H. rewrite length_map in H.
  set (n := count_present (map time_until_starting_line_race (rows f))) in *.
  assert (E : (0 <? n) && (n <? List.length (rows f)) && (n <=? order)
              = false).
  { apply orb_prop in H. destruct H as [H|H].
    - apply Nat.eqb_eq in H. rewrite <- H, Nat.ltb_irrefl.
      now rewrite andb_false_r.
    - apply Nat.ltb_lt in H.
      assert (G : (n <=? order) = false) by now apply Nat.leb_gt.
      rewrite G. apply andb_false_r. }
  now rewrite E.
Qed.

Lemma Series_interpolate_fails (spline : list (nat * Q) -> nat -> option Q)
    (f : RaceResultsDataFrame) :
  let n := count_present (map time_until_starting_line_race (rows f)) in
  1 <= n <= order -> n < participants f ->
  Series_interpolate spline (reindexed_series f) = None.
Proof.
  intros n [H1 H2] H3. unfold Series_interpolate.
  rewrite reindexed_series_points, reindexed_series_length.
  fold n.
  assert (E1 : (0 <? n) = true) by (apply Nat.ltb_lt; lia).
  assert (E2 : (n <? List.length (rows f)) = true)
    by (apply Nat.ltb_lt; exact H3).
  assert (E3 : (n <=? order) = true) by (apply Nat.leb_le; exact H2).
  now rewrite E1, E2, E3.
Qed.

Lemma interpolate_returns (spline : list (nat * Q) -> nat -> option Q)
    (w : World) :
  has_column "time_until_starting_line_race" (self w) = true ->
  interpolable (map time_until_starting_line_race (rows (self w))) = true ->
  __interpolate_time_until_starting_line_race spline w
  = Returned tt {| self := with_interpolated_time spline (self w);
                   stdout := stdout w |}.
Proof.
  intros H Hfit.
  unfold __interpolate_time_until_starting_line_race, with_interpolated_time,
    bind, getitem, bind, get_self, update_self, ret, raise.
  rewrite H. cbv iota.
  now rewrite (Series_interpolate_fits spline (self w) Hfit).
Qed.

Lemma interpolate_raises (spline : list (nat * Q) -> nat -> option Q)
    (w : World) :
  has_column "time_until_starting_line_race" (self w) = true ->
  let n := count_present
             (map time_until_starting_line_race (rows (self w))) in
  1 <= n <= order -> n < participants (self w) ->
  __interpolate_time_until_starting_line_race spline w
  = Raised dfitpack_error.
Proof.
  intros H n Hn Hgap.
  unfold __interpolate_time_until_starting_line_race,
    bind, getitem, bind, get_self, update_self, ret, raise.
  rewrite H. cbv iota.
  now rewrite (Series_interpolate_fails spline (self w) Hn Hgap).
Qed.

Lemma interpolated_length (spline : list (nat * Q) -> nat -> option Q)
    (f : RaceResultsDataFrame) :
  List.length (interpolated spline (reindexed_series f))
  = List.length (rows f).
Proof.
  unfold interpolated.
  destruct (present_points (reindexed_series f));
    rewrite length_map; apply reindexed_series_length.
Qed.

(** *** Step 4 *)

Lemma check_last_lap_returns (col : nat) (df : list LapRow) (w : World) :
  check_last_lap col df w
  = Returned tt {| self := self w;
                   stdout := stdout w ++ diagnostics col df |}.
Proof.
  revert w. induction df as [|r df IH]; intros [f out]; simpl.
  - unfold ret. now rewrite app_nil_r.
  - unfold bind.
    destruct (nth col (l_Lap r) None) as [found|]; simpl.
    + destruct (differs found (l_end_position_race r)); simpl.
      * unfold print. simpl. rewrite IH. simpl. now rewrite <- app_assoc.
      * unfold ret. rewrite IH. reflexivity.
    + unfold ret. rewrite IH. reflexivity.
Qed.

Lemma with_lap_times_In (rs : list Row) (r : Row) (l : list Q) :
  In (r, l) (with_lap_times rs) <-> In r rs /\ lap_times_race r = Some l.
Proof.
  unfold with_lap_times. rewrite in_flat_map. split.
  - intros [r0 [Hr0 H]]. destruct (lap_times_race r0) as [l0|] eqn:E.
    + destruct H as [H|[]]. injection H as -> ->. auto.
    + destruct H.
  - intros [Hr E]. exists r. split; [exact Hr|]. rewrite E. now left.
Qed.

Lemma with_lap_times_nonempty (rs : list Row) :
  (exists r, In r rs /\ lap_times_race r <> None) ->
  with_lap_times rs <> [].
Proof.
  intros [r [Hr Hl]] E.
  destruct (lap_times_race r) as [l|] eqn:El; [|congruence].
  assert (H : In (r, l) (with_lap_times rs))
    by (apply with_lap_times_In; auto).
  rewrite E in H. destruct H.
Qed.

Lemma with_lap_times_empty (rs : list Row) :
  (forall r, In r rs -> lap_times_race r = None) ->
  with_lap_times rs = [].
Proof.
  intros H. destruct (with_lap_times rs) as [|[r l] df] eqn:E;
    [reflexivity|].
  assert (Hin : In (r, l) (with_lap_times rs)) by (rewrite E; now left).
  apply with_lap_times_In in Hin. destruct Hin as [Hr Hl].
  rewrite (H r Hr) in Hl. discriminate.
Qed.

Lemma calc_lap_positions_returns (w : World) :
  has_column "name" (self w) = true ->
  has_column "time_until_starting_line_race" (self w) = true ->
  has_column "lap_times_race" (self w) = true ->
  has_column "starting_position_race" (self w) = true ->
  has_column "end_position_race" (self w) = true ->
  with_lap_times (rows (self w)) <> [] ->
  __calc_lap_positions w
  = Returned tt
      {| self := with_lap_positions (self w);
         stdout := stdout w
                   ++ diagnostics (col_pos_last_lap (rows (self w)))
                        (ranked_frame (rows (self w))) |}.
Proof.
  intros H1 H2 H3 H4 H5 Hne.
  unfold __calc_lap_positions, bind at 1.
  unfold getitems, getitem, bind, get_self, ret, raise.
  rewrite H3. cbv iota. rewrite H1. cbv iota. rewrite H2. cbv iota.
  rewrite H3. cbv iota. rewrite H4. cbv iota. rewrite H5. cbv iota beta.
  destruct (with_lap_times (rows (self w))) as [|rl df] eqn:E;
    [contradiction|].
  rewrite check_last_lap_returns.
  reflexivity.
Qed.

Lemma calc_lap_positions_raises (w : World) :
  has_column "name" (self w) = true ->
  has_column "time_until_starting_line_race" (self w) = true ->
  has_column "lap_times_race" (self w) = true ->
  has_column "starting_position_race" (self w) = true ->
  has_column "end_position_race" (self w) = true ->
  with_lap_times (rows (self w)) = [] ->
  __calc_lap_positions w = Raised ValueError.
Proof.
  intros H1 H2 H3 H4 H5 Hne.
  unfold __calc_lap_positions, bind at 1.
  unfold getitems, getitem, bind, get_self, ret, raise.
  rewrite H3. cbv iota. rewrite H1. cbv iota. rewrite H2. cbv iota.
  rewrite H3. cbv iota. rewrite H4. cbv iota. rewrite H5. cbv iota beta.
  now rewrite Hne.
Qed.

Lemma has_column_with_starting_position (c : string)
    (f : RaceResultsDataFrame) :
  has_column c f = true -> has_column c (with_starting_position f) = true.
Proof. intros H. now apply has_column_assign_column. Qed.

Lemma has_column_with_end_position (c : string) (f : RaceResultsDataFrame) :
  has_column c f = true -> has_column c (with_end_position f) = true.
Proof. intros H. now apply has_column_assign_column. Qed.

Lemma has_column_with_interpolated_time
    (spline : list (nat * Q) -> nat -> option Q) (c : string)
    (f : RaceResultsDataFrame) :
  has_column c f = true ->
  has_column c (with_interpolated_time spline f) = true.
Proof. intros H. now apply has_column_assign_column. Qed.

Lemma has_column_with_lap_positions (c : string)
    (f : RaceResultsDataFrame) :
  has_column c f = true -> has_column c (with_lap_positions f) = true.
Proof.
  intros H. unfold with_lap_positions.
  change (has_column c
            (assign_column "lap_positions_race" set_lap_positions_race
               (map (fun _ => None) (rows f)) f) = true).
  now apply has_column_assign_column.
Qed.

(** ** Lists of cells *)

Lemma bfill_length (l : list (option nat)) :
  List.length (bfill l) = List.length l.
Proof.
  induction l as [|[x|] l IH]; simpl; now rewrite ?IH.
Qed.

Lemma hd_nth_0 {A : Type} (d : A) (l : list A) : hd d l = nth 0 l d.
Proof. destruct l; reflexivity. Qed.

Lemma bfill_cons_nth (x : option nat) (l : list (option nat)) (k : nat) :
  nth (S k) (bfill (x :: l)) None = nth k (bfill l) None.
Proof. simpl. destruct x; reflexivity. Qed.

(** Over a run of missing cells that ends in a present one, every cell
    takes the value of that one. *)
Lemma bfill_gap (e : nat) (l : list (option nat)) :
  forall k n,
    k <= n ->
    (forall j, k <= j < n -> nth j l None = None) ->
    nth n l None = Some e ->
    nth k (bfill l) None = Some e.
Proof.
  induction l as [|x l IH]; intros k n Hkn Hgap Hn.
  - destruct n; discriminate.
  - destruct k as [|k].
    + destruct n as [|n].
      * simpl in Hn. subst x. reflexivity.
      * assert (Hx : x = None) by (apply (Hgap 0); lia). subst x.
        simpl. rewrite hd_nth_0. apply (IH 0 n); [lia| |exact Hn].
        intros j Hj. apply (Hgap (S j)). lia.
    + destruct n as [|n]; [lia|].
      rewrite bfill_cons_nth. apply (IH k n); [lia| |exact Hn].
      intros j Hj. apply (Hgap (S j)). lia.
Qed.

Lemma bfill_present (e : nat) (l : list (option nat)) (k : nat) :
  nth k l None = Some e -> nth k (bfill l) None = Some e.
Proof.
  intros H. apply (bfill_gap e l k k); [lia| |exact H].
  intros j Hj. lia.
Qed.

(** A row that ends in a present cell has no missing cell once filled. *)
Lemma bfill_full (l : list (option nat)) (e : nat) :
  last l None = Some e -> Forall (fun x => x <> None) (bfill l).
Proof.
  induction l as [|x l IH]; intros H.
  - discriminate.
  - destruct l as [|y l].
    + simpl in H. subst x. simpl. constructor; [discriminate|constructor].
    + assert (Hl : last (y :: l) None = Some e) by exact H.
      specialize (IH Hl).
      change (bfill (x :: y :: l))
        with (match x with
              | Some _ => x :: bfill (y :: l)
              | None => hd None (bfill (y :: l)) :: bfill (y :: l)
              end).
      destruct x as [v|].
      * constructor; [discriminate|exact IH].
      * constructor; [|exact IH].
        remember (bfill (y :: l)) as b eqn:Eb.
        destruct b as [|z b].
        -- apply (f_equal (@List.length _)) in Eb.
           rewrite bfill_length in Eb. discriminate.
        -- simpl. now inversion IH.
Qed.

Lemma last_nth {A : Type} (d : A) (l : list A) :
  last l d = nth (List.length l - 1) l d.
Proof.
  induction l as [|x l IH]; [reflexivity|].
  destruct l as [|y l]; [reflexivity|].
  change (last (x :: y :: l) d) with (last (y :: l) d). rewrite IH.
  simpl. now rewrite Nat.sub_0_r.
Qed.

Lemma set_nth_length {A : Type} (n : nat) (v : A) (l : list A) :
  List.length (set_nth n v l) = List.length l.
Proof.
  revert n. induction l as [|a l IH]; intros [|n]; simpl; auto.
Qed.

Lemma nth_set_nth_same {A : Type} (n : nat) (v d : A) (l : list A) :
  n < List.length l -> nth n (set_nth n v l) d = v.
Proof.
  revert n. induction l as [|a l IH]; intros [|n] H; simpl in *;
    try lia; auto.
  apply IH. lia.
Qed.

Lemma nth_set_nth_other {A : Type} (n k : nat) (v d : A) (l : list A) :
  k <> n -> nth k (set_nth n v l) d = nth k l d.
Proof.
  revert n k. induction l as [|a l IH]; intros [|n] [|k] H; simpl;
    try reflexivity; try lia.
  apply IH. lia.
Qed.

Lemma cumsum_from_length (acc : option Q) (l : list (option Q)) :
  List.length (cumsum_from acc l) = List.length l.
Proof.
  revert acc. induction l as [|[x|] l IH]; intros acc; simpl;
    now rewrite ?IH.
Qed.

Lemma cumsum_from_isna (acc : option Q) (l : list (option Q)) (k : nat) :
  isna (nth k (cumsum_from acc l) None) = isna (nth k l None).
Proof.
  revert acc k. induction l as [|[x|] l IH]; intros acc [|k]; simpl;
    try reflexivity; apply IH.
Qed.

Lemma padded_length (w : nat) (l : list Q) :
  List.length l <= w -> List.length (padded w l) = w.
Proof.
  intros H. unfold padded.
  rewrite length_app, length_map, repeat_length. lia.
Qed.

Lemma padded_isna (w : nat) (l : list Q) (k : nat) :
  isna (nth k (padded w l) None) = negb (k <? List.length l).
Proof.
  unfold padded. destruct (k <? List.length l) eqn:E.
  - apply Nat.ltb_lt in E.
    rewrite app_nth1 by now rewrite length_map.
    rewrite (nth_indep _ None (Some 0%Q)) by now rewrite length_map.
    now rewrite map_nth.
  - apply Nat.ltb_ge in E.
    rewrite app_nth2 by now rewrite length_map.
    rewrite nth_repeat. reflexivity.
Qed.

Lemma width_bound (ls : list (list Q)) (l : list Q) :
  In l ls -> List.length l <= width ls.
Proof.
  induction ls as [|x ls IH]; simpl; [contradiction|].
  intros [->|H]; [lia|]. specialize (IH H). lia.
Qed.

(** ** The working frame of step 4 *)


Lemma lap_frame_In (rs : list Row) (lr : LapRow) :
  In lr (lap_frame rs) ->
  exists r l,
    In r rs /\ lap_times_race r = Some l /\
    starts_as (total_laps rs) r l lr /\ l_Lap lr = [].
Proof.
  unfold lap_frame. intros H. apply in_map_iff in H.
  destruct H as [[r l] [E H]]. apply with_lap_times_In in H.
  destruct H as [Hr Hl]. exists r, l. subst lr.
  repeat split; assumption.
Qed.

Lemma lap_frame_complete (rs : list Row) (r : Row) (l : list Q) :
  In r rs -> lap_times_race r = Some l ->
  exists lr, In lr (lap_frame rs) /\ l_index lr = index r.
Proof.
  intros Hr Hl.
  assert (H : In (r, l) (with_lap_times rs))
    by (apply with_lap_times_In; auto).
  eexists. split.
  - unfold lap_frame. apply in_map_iff. exists (r, l). split;
      [reflexivity|exact H].
  - reflexivity.
Qed.

Lemma rank_lap_assigned (df : list LapRow) (col : nat) :
  rank_lap df col
  = assigned
      (fun v r => add_Lap (if isna (time_at col r) then None else Some v) r)
      (quicksort (on (time_at col) (ascending Qcompare)) df)
      (range1 (List.length
                 (quicksort (on (time_at col) (ascending Qcompare)) df))).
Proof. reflexivity. Qed.

Lemma time_at_unranked (col : nat) (a b : LapRow) :
  unranked a = unranked b -> time_at col a = time_at col b.
Proof.
  intros E. change (time_at col (unranked a) = time_at col (unranked b)).
  now rewrite E.
Qed.

Lemma rank_lap_In (df : list LapRow) (col : nat) (lr : LapRow) :
  In lr (rank_lap df col) ->
  exists lr0, In lr0 df /\ ranked_from [col] lr0 lr.
Proof.
  rewrite rank_lap_assigned. intros H. apply assigned_In in H.
  destruct H as [r [v [Hr ->]]].
  exists r. split.
  - eapply Permutation_in; [apply quicksort_Permutation | exact Hr].
  - split; [reflexivity|].
    eexists. split; [reflexivity|].
    constructor; [|constructor].
    destruct (isna (time_at col r)); reflexivity.
Qed.

Lemma rank_lap_unranked (df : list LapRow) (col : nat) :
  Permutation (map unranked (rank_lap df col)) (map unranked df).
Proof.
  rewrite rank_lap_assigned, assigned_other.
  - apply Permutation_map, quicksort_Permutation.
  - reflexivity.
  - unfold range1. now rewrite length_seq.
Qed.

Lemma ranked_from_step (c : nat) (cs : list nat) (a b x : LapRow) :
  ranked_from [c] a b -> ranked_from cs b x -> ranked_from (c :: cs) a x.
Proof.
  intros [Eab [es1 [Lab Fab]]] [Ebx [es [Lbx Fbx]]].
  split; [congruence|].
  inversion Fab as [|c' e1 cs' es1' He1 Hnil]; subst.
  inversion Hnil; subst.
  exists (e1 :: es). split.
  - rewrite Lbx, Lab, <- app_assoc. reflexivity.
  - constructor; [exact He1|].
    eapply Forall2_impl; [|exact Fbx].
    intros col e H. simpl in H. rewrite H. f_equal.
    now apply time_at_unranked.
Qed.

Lemma rank_laps_In (cols : list nat) :
  forall (df : list LapRow) (lr : LapRow),
    In lr (rank_laps cols df) ->
    exists lr0, In lr0 df /\ ranked_from cols lr0 lr.
Proof.
  induction cols as [|c cs IH]; intros df lr H.
  - exists lr. split; [exact H|]. split; [reflexivity|].
    exists []. split; [now rewrite app_nil_r | constructor].
  - change (rank_laps (c :: cs) df) with (rank_laps cs (rank_lap df c)) in H.
    destruct (IH _ _ H) as [lr1 [H1 R1]].
    destruct (rank_lap_In _ _ _ H1) as [lr0 [H0 R0]].
    exists lr0. split; [exact H0|].
    eapply ranked_from_step; eassumption.
Qed.

Lemma rank_laps_unranked (cols : list nat) :
  forall df : list LapRow,
    Permutation (map unranked (rank_laps cols df)) (map unranked df).
Proof.
  induction cols as [|c cs IH]; intros df.
  - apply Permutation_refl.
  - change (rank_laps (c :: cs) df) with (rank_laps cs (rank_lap df c)).
    eapply perm_trans; [apply IH | apply rank_lap_unranked].
Qed.

Lemma Forall2_seq_nth {B : Type} (P : nat -> B -> Prop) (d : B) :
  forall n a es,
    Forall2 P (seq a n) es ->
    List.length es = n /\ forall k, k < n -> P (a + k) (nth k es d).
Proof.
  induction n as [|n IH]; intros a es H; simpl in H.
  - inversion H. split; [reflexivity|]. intros k Hk. lia.
  - inversion H as [|x e xs es' He Hes]; subst.
    destruct (IH _ _ Hes) as [Hlen Hnth].
    split; [simpl; now rewrite Hlen|].
    intros [|k] Hk; simpl.
    + now rewrite Nat.add_0_r.
    + rewrite <- Nat.add_succ_comm. apply Hnth. lia.
Qed.

Lemma col_pos_last_lap_total_laps (rs : list Row) :
  col_pos_last_lap rs = total_laps rs.
Proof.
  unfold col_pos_last_lap, lap_columns, total_laps.
  rewrite seq_S. apply last_last.
Qed.

Lemma starts_as_unranked (w : nat) (r : Row) (l : list Q) (a b : LapRow) :
  unranked a = unranked b -> starts_as w r l b -> starts_as w r l a.
Proof.
  intros E [H1 [H2 [H3 H4]]].
  pose proof (f_equal l_index E) as E1.
  pose proof (f_equal l_starting_position_race E) as E2.
  pose proof (f_equal l_end_position_race E) as E3.
  pose proof (f_equal l_times E) as E4.
  simpl in E1, E2, E3, E4.
  repeat split; congruence.
Qed.

Lemma ranked_frame_In (rs : list Row) (lr : LapRow) :
  In lr (ranked_frame rs) ->
  exists r l,
    In r rs /\ lap_times_race r = Some l /\
    starts_as (total_laps rs) r l lr /\
    lap_cells (total_laps rs) l (l_Lap lr).
Proof.
  intros H. apply rank_laps_In in H.
  destruct H as [lr0 [H0 [E [es [Les Fes]]]]].
  apply lap_frame_In in H0. destruct H0 as [r [l [Hr [Hl [Hs Hnil]]]]].
  exists r, l.
  split; [exact Hr|]. split; [exact Hl|].
  split; [eapply starts_as_unranked; eassumption|].
  rewrite Les, Hnil. simpl app.
  apply (Forall2_seq_nth _ None) in Fes. destruct Fes as [Hlen Fes].
  split; [exact Hlen|].
  intros j Hj.
  specialize (Fes (S j)). simpl in Fes.
  rewrite Fes by (unfold total_laps in *; lia).
  destruct Hs as [_ [_ [_ Ht]]]. unfold time_at. rewrite Ht.
  unfold cumsum. rewrite cumsum_from_isna. simpl.
  apply padded_isna.
Qed.

Lemma ranked_frame_complete (rs : list Row) (r : Row) (l : list Q) :
  In r rs -> lap_times_race r = Some l ->
  exists lr, In lr (ranked_frame rs) /\ l_index lr = index r.
Proof.
  intros Hr Hl.
  destruct (lap_frame_complete rs r l Hr Hl) as [lr0 [H0 E0]].
  assert (H : In (unranked lr0) (map unranked (ranked_frame rs))).
  { eapply Permutation_in.
    - apply Permutation_sym, rank_laps_unranked.
    - now apply in_map. }
  apply in_map_iff in H. destruct H as [lr [E H]].
  exists lr. split; [exact H|].
  apply (f_equal l_index) in E. simpl in E. congruence.
Qed.

Lemma classified_frame_In (rs : list Row) (lr : LapRow) :
  In lr (classified_frame rs) ->
  exists r l es,
    In r rs /\ lap_times_race r = Some l /\
    l_index lr = index r /\
    l_starting_position_race lr = starting_position_race r /\
    lap_cells (total_laps rs) l es /\
    l_Lap lr = set_nth (total_laps rs) (end_position_race r) es.
Proof.
  unfold classified_frame. intros H. apply in_map_iff in H.
  destruct H as [lr1 [E H]].
  apply (Permutation_in _ (quicksort_Permutation _ _ _)) in H.
  apply ranked_frame_In in H.
  destruct H as [r [l [Hr [Hl [[H1 [H2 [H3 H4]]] Hc]]]]].
  exists r, l, (l_Lap lr1). subst lr. simpl.
  rewrite col_pos_last_lap_total_laps, H3.
  split; [exact Hr|]. split; [exact Hl|]. split; [exact H1|].
  split; [exact H2|]. split; [exact Hc|reflexivity].
Qed.

Lemma classified_frame_complete (rs : list Row) (r : Row) (l : list Q) :
  In r rs -> lap_times_race r = Some l ->
  exists lr, In lr (classified_frame rs) /\ l_index lr = index r.
Proof.
  intros Hr Hl.
  destruct (ranked_frame_complete rs r l Hr Hl) as [lr1 [H1 E1]].
  exists (set_Lap (col_pos_last_lap rs) (l_end_position_race lr1) lr1).
  split; [|exact E1].
  unfold classified_frame. apply in_map_iff. exists lr1.
  split; [reflexivity|].
  eapply Permutation_in; [apply Permutation_sym, quicksort_Permutation|exact H1].
Qed.

Lemma lap_table_In (rs : list Row) (i : nat) (ps : list (option nat)) :
  In (i, ps) (lap_table (classified_frame rs)) ->
  exists r l es,
    In r rs /\ lap_times_race r = Some l /\ i = index r /\
    lap_cells (total_laps rs) l es /\
    ps = stored_row (total_laps rs) r es.
Proof.
  unfold lap_table. intros H. apply in_map_iff in H.
  destruct H as [lr [E H]]. injection E as <- <-.
  apply classified_frame_In in H.
  destruct H as [r [l [es [Hr [Hl [Hi [Hs [Hc HL]]]]]]]].
  exists r, l, es.
  split; [exact Hr|]. split; [exact Hl|]. split; [exact Hi|].
  split; [exact Hc|].
  unfold stored_row, lap_table_row. now rewrite Hs, HL.
Qed.

Lemma lap_table_complete (rs : list Row) (r : Row) (l : list Q) :
  In r rs -> lap_times_race r = Some l ->
  exists ps, In (index r, ps) (lap_table (classified_frame rs)).
Proof.
  intros Hr Hl.
  destruct (classified_frame_complete rs r l Hr Hl) as [lr [H E]].
  exists (bfill (lap_table_row lr)). unfold lap_table.
  apply in_map_iff. exists lr. split; [now rewrite E | exact H].
Qed.

(** ** The list stored for a driver *)

Section StoredRow.

Context (w : nat) (r : Row) (l : list Q) (es : list (option nat)).
Context (s e : nat).
Hypothesis Hcells : lap_cells w l es.
Hypothesis Hstart : starting_position_race r = Some s.
Hypothesis Hend : end_position_race r = Some e.

Lemma row_length : List.length (lap_table_cells w r es) = S w.
Proof.
  unfold lap_table_cells.
  change (S (List.length (skipn 1 (set_nth w (end_position_race r) es)))
          = S w).
  rewrite length_skipn, set_nth_length.
  destruct Hcells as [-> _]. lia.
Qed.

Lemma row_nth (k : nat) :
  1 <= k ->
  nth k (lap_table_cells w r es) None
  = nth k (set_nth w (end_position_race r) es) None.
Proof.
  intros Hk. unfold lap_table_cells. destruct k as [|k]; [lia|].
  destruct (set_nth w (end_position_race r) es) as [|x X];
    simpl; [now destruct k | reflexivity].
Qed.

Lemma row_nth_last :
  1 <= w -> nth w (lap_table_cells w r es) None = Some e.
Proof.
  intros Hw. rewrite row_nth by exact Hw.
  rewrite nth_set_nth_same; [exact Hend|].
  destruct Hcells as [-> _]. lia.
Qed.

Lemma row_nth_after (k : nat) :
  1 <= k -> List.length l < k < w ->
  nth k (lap_table_cells w r es) None = None.
Proof.
  intros Hk Hlk. rewrite row_nth by exact Hk.
  rewrite nth_set_nth_other by lia.
  destruct k as [|j]; [lia|].
  destruct Hcells as [_ Hna]. specialize (Hna j).
  assert (E : (j <? List.length l) = false) by (apply Nat.ltb_ge; lia).
  rewrite E in Hna.
  destruct (nth (S j) es None); [|reflexivity].
  simpl in Hna. specialize (Hna ltac:(lia)). discriminate.
Qed.

Lemma stored_row_length : List.length (stored_row w r es) = S w.
Proof. unfold stored_row. rewrite bfill_length. apply row_length. Qed.

Lemma stored_row_first : nth 0 (stored_row w r es) None = Some s.
Proof. unfold stored_row. apply bfill_present. exact Hstart. Qed.

(** Beyond the last lap driven every cell holds the final position. *)
Lemma stored_row_after (k : nat) :
  List.length l < k <= w -> nth k (stored_row w r es) None = Some e.
Proof.
  intros Hk. unfold stored_row. apply (bfill_gap e _ k w).
  - lia.
  - intros j Hj. apply row_nth_after; lia.
  - apply row_nth_last. lia.
Qed.

Lemma stored_row_last :
  1 <= w -> last (stored_row w r es) None = Some e.
Proof.
  intros Hw. rewrite last_nth, stored_row_length.
  replace (S w - 1) with w by lia.
  unfold stored_row. apply bfill_present. now apply row_nth_last.
Qed.

Lemma stored_row_full :
  Forall (fun x => x <> None) (stored_row w r es).
Proof.
  unfold stored_row.
  destruct (Nat.eq_dec w 0) as [Ew|Ew].
  - apply (bfill_full _ s). rewrite last_nth, row_length, Ew.
    exact Hstart.
  - apply (bfill_full _ e). rewrite last_nth, row_length.
    replace (S w - 1) with w by lia.
    apply row_nth_last. lia.
Qed.

End StoredRow.

(** ** Writing the lists back *)

Lemma store_lap_positions_other {B : Type} (g : Row -> B)
    (items : list (nat * list (option nat))) :
  (forall v r, g (set_lap_positions_race v r) = g r) ->
  forall rs, map g (store_lap_positions items rs) = map g rs.
Proof.
  intros Hg. induction items as [|it items IH]; intros rs; simpl.
  - reflexivity.
  - unfold store_lap_positions in *. simpl. rewrite IH.
    rewrite map_map. apply map_ext. intros r.
    destruct (index r =? fst it); [apply Hg | reflexivity].
Qed.

Lemma store_lap_positions_In (items : list (nat * list (option nat))) :
  forall rs r',
    In r' (store_lap_positions items rs) ->
    exists r,
      In r rs /\
      ((r' = r /\ forall v, ~ In (index r, v) items) \/
       (exists v, In (index r, v) items /\
                  r' = set_lap_positions_race (Some v) r)).
Proof.
  induction items as [|[i v] items IH]; intros rs r' H.
  - exists r'. split; [exact H|]. left. split; [reflexivity|].
    intros v [].
  - unfold store_lap_positions in H. simpl in H.
    apply IH in H. destruct H as [r1 [H1 Hcase]].
    apply in_map_iff in H1. destruct H1 as [r0 [E0 H0]].
    exists r0. split; [exact H0|].
    destruct (index r0 =? i) eqn:Ei.
    + apply Nat.eqb_eq in Ei. subst r1 i.
      destruct Hcase as [[-> Hno]|[v' [Hv' ->]]].
      * right. exists v. split; [now left | reflexivity].
      * right. exists v'. split; [now right | reflexivity].
    + apply Nat.eqb_neq in Ei. subst r1.
      destruct Hcase as [[-> Hno]|[v' [Hv' ->]]].
      * left. split; [reflexivity|].
        intros v' [E|Hin]; [injection E as E _; congruence|].
        exact (Hno v' Hin).
      * right. exists v'. split; [now right | reflexivity].
Qed.

Lemma assigned_const_None (rs : list Row) :
  assigned set_lap_positions_race rs (map (fun _ => None) rs)
  = map (set_lap_positions_race None) rs.
Proof.
  unfold assigned. induction rs as [|r rs IH]; simpl; [reflexivity|].
  now rewrite IH.
Qed.

Lemma with_lap_positions_rows (f : RaceResultsDataFrame) :
  rows (with_lap_positions f)
  = store_lap_positions (lap_table (classified_frame (rows f)))
      (map (set_lap_positions_race None) (rows f)).
Proof.
  rewrite <- assigned_const_None. reflexivity.
Qed.

Lemma with_lap_positions_other {B : Type} (g : Row -> B)
    (f : RaceResultsDataFrame) :
  (forall v r, g (set_lap_positions_race v r) = g r) ->
  map g (rows (with_lap_positions f)) = map g (rows f).
Proof.
  intros Hg. rewrite with_lap_positions_rows.
  rewrite store_lap_positions_other by exact Hg.
  rewrite map_map. apply map_ext. intros r. apply Hg.
Qed.

Lemma with_lap_positions_In (f : RaceResultsDataFrame) (r' : Row) :
  In r' (rows (with_lap_positions f)) ->
  exists r,
    In r (rows f) /\
    ((r' = set_lap_positions_race None r /\
      forall v, ~ In (index r, v) (lap_table (classified_frame (rows f))))
     \/
     (exists v, In (index r, v) (lap_table (classified_frame (rows f))) /\
                r' = set_lap_positions_race (Some v) r)).
Proof.
  rewrite with_lap_positions_rows. intros H.
  apply store_lap_positions_In in H. destruct H as [r1 [H1 Hcase]].
  apply in_map_iff in H1. destruct H1 as [r [<- Hr]].
  exists r. split; [exact Hr|].
  destruct Hcase as [[-> Hno]|[v [Hv ->]]].
  - left. split; [reflexivity | exact Hno].
  - right. exists v. split; [exact Hv | reflexivity].
Qed.

Lemma NoDup_index (rs : list Row) (a b : Row) :
  NoDup (map index rs) -> In a rs -> In b rs -> index a = index b -> a = b.
Proof.
  induction rs as [|r rs IH]; intros Hnd Ha Hb E; [contradiction|].
  simpl in Hnd. apply NoDup_cons_iff in Hnd. destruct Hnd as [Hnot Hnd].
  destruct Ha as [->|Ha], Hb as [->|Hb].
  - reflexivity.
  - exfalso. apply Hnot. rewrite E. now apply in_map.
  - exfalso. apply Hnot. rewrite <- E. now apply in_map.
  - now apply IH.
Qed.

(** What step 4 leaves in the row of a driver who has lap times: the list
    of a row with these lap times; under distinct row labels, of that very
    row. *)
Lemma with_lap_positions_stored (f : RaceResultsDataFrame) (r' : Row)
    (l : list Q) :
  In r' (rows (with_lap_positions f)) ->
  lap_times_race r' = Some l ->
  exists r r0 l0 es,
    In r (rows f) /\ In r0 (rows f) /\
    r' = set_lap_positions_race
           (Some (stored_row (total_laps (rows f)) r0 es)) r /\
    lap_times_race r0 = Some l0 /\
    lap_cells (total_laps (rows f)) l0 es /\
    (NoDup (map index (rows f)) -> r0 = r).
Proof.
  intros H Hl. apply with_lap_positions_In in H.
  destruct H as [r [Hr [[-> Hno]|[v [Hv ->]]]]]; simpl in Hl.
  - destruct (lap_table_complete (rows f) r l Hr Hl) as [ps Hps].
    destruct (Hno ps Hps).
  - apply lap_table_In in Hv.
    destruct Hv as [r0 [l0 [es [Hr0 [Hl0 [Hi [Hc ->]]]]]]].
    exists r, r0, l0, es.
    repeat (split; [assumption || reflexivity|]).
    intros Hnd. symmetry. now apply (NoDup_index (rows f)).
Qed.

(** ** The frame step 4 starts from *)

Lemma assigned_In_value {T V : Type} (set : V -> T -> T)
    (rs : list T) (vs : list V) (r' : T) :
  In r' (assigned set rs vs) ->
  exists r v, In r rs /\ In v vs /\ r' = set v r.
Proof.
  unfold assigned. intros H. apply in_map_iff in H.
  destruct H as [[r v] [E H]].
  exists r, v. split; [eapply in_combine_l; exact H|].
  split; [eapply in_combine_r; exact H | now rewrite <- E].
Qed.

Lemma with_end_position_rows (f : RaceResultsDataFrame) :
  rows (with_end_position f)
  = assigned set_end_position_race
      (sort_values by_laps_time_grid (rows f))
      (map Some (range1 (participants f))).
Proof.
  unfold with_end_position, participants. simpl.
  now rewrite sort_values_length.
Qed.

Lemma with_end_position_length (f : RaceResultsDataFrame) :
  participants (with_end_position f) = participants f.
Proof.
  unfold participants. rewrite with_end_position_rows.
  rewrite assigned_length; [apply sort_values_length|].
  rewrite length_map_range1, sort_values_length. reflexivity.
Qed.

Section Untouched.

(** A column that a step does not write is carried along: reordered by
    the two sorts, left in place by the other steps. *)
Context {B : Type} (g : Row -> B).

Lemma with_end_position_other (f : RaceResultsDataFrame) :
  (forall v r, g (set_end_position_race v r) = g r) ->
  map g (rows (with_end_position f))
  = map g (sort_values by_laps_time_grid (rows f)).
Proof.
  intros Hg. rewrite with_end_position_rows.
  apply assigned_other; [exact Hg|].
  now rewrite length_map_range1, sort_values_length.
Qed.

Lemma with_interpolated_time_other
    (spline : list (nat * Q) -> nat -> option Q)
    (f : RaceResultsDataFrame) :
  (forall v r, g (set_time_until_starting_line_race v r) = g r) ->
  map g (rows (with_interpolated_time spline f)) = map g (rows f).
Proof.
  intros Hg. unfold with_interpolated_time. rewrite assign_column_rows.
  apply assigned_other; [exact Hg|].
  apply interpolated_length.
Qed.

Lemma ranked_other (f : RaceResultsDataFrame) :
  (forall v r, g (set_starting_position_race v r) = g r) ->
  (forall v r, g (set_end_position_race v r) = g r) ->
  Permutation (map g (rows (with_end_position (with_starting_position f))))
              (map g (rows f)).
Proof.
  intros H1 H2.
  rewrite with_end_position_other by exact H2.
  eapply perm_trans; [apply Permutation_map, sort_values_perm|].
  rewrite with_starting_position_other by exact H1.
  apply Permutation_map, grid_order_perm.
Qed.

Lemma timed_other (spline : list (nat * Q) -> nat -> option Q)
    (f : RaceResultsDataFrame) :
  (forall v r, g (set_starting_position_race v r) = g r) ->
  (forall v r, g (set_end_position_race v r) = g r) ->
  (forall v r, g (set_time_until_starting_line_race v r) = g r) ->
  Permutation (map g (rows (timed spline f))) (map g (rows f)).
Proof.
  intros H1 H2 H3. unfold timed.
  rewrite with_interpolated_time_other by exact H3.
  now apply ranked_other.
Qed.

End Untouched.

Lemma with_end_position_ranks (f : RaceResultsDataFrame) :
  map end_position_race (rows (with_end_position f))
  = map Some (seq 1 (participants f)).
Proof.
  rewrite with_end_position_rows.
  rewrite (assigned_this set_end_position_race
             end_position_race (fun v => v)).
  - apply map_id.
  - reflexivity.
  - now rewrite length_map_range1, sort_values_length.
Qed.

Lemma ranks_present (g : Row -> option nat) (rs : list Row) (k n : nat)
    (r : Row) :
  map g rs = map Some (seq k n) -> In r rs -> exists p, g r = Some p.
Proof.
  intros E Hr. apply (in_map g) in Hr. rewrite E in Hr.
  apply in_map_iff in Hr. destruct Hr as [p [Hp _]]. now exists p.
Qed.

Lemma ranks_present_perm (g : Row -> option nat) (rs : list Row) (k n : nat)
    (r : Row) :
  Permutation (map g rs) (map Some (seq k n)) -> In r rs ->
  exists p, g r = Some p.
Proof.
  intros E Hr. apply (in_map g) in Hr.
  apply (Permutation_in _ E) in Hr.
  apply in_map_iff in Hr. destruct Hr as [p [Hp _]]. now exists p.
Qed.

Section Timed.

Variable spline : list (nat * Q) -> nat -> option Q.
Variable f : RaceResultsDataFrame.

Lemma timed_end_position :
  map end_position_race (rows (timed spline f))
  = map Some (seq 1 (participants f)).
Proof.
  unfold timed.
  rewrite with_interpolated_time_other by reflexivity.
  rewrite with_end_position_ranks.
  now rewrite with_starting_position_length.
Qed.

Lemma timed_starting_position :
  Permutation (map starting_position_race (rows (timed spline f)))
              (map Some (seq 1 (participants f))).
Proof.
  unfold timed.
  rewrite with_interpolated_time_other by reflexivity.
  rewrite with_end_position_other by reflexivity.
  eapply perm_trans; [apply Permutation_map, sort_values_perm|].
  rewrite with_starting_position_ranks. apply Permutation_refl.
Qed.

Lemma timed_classified : Forall classified (rows (timed spline f)).
Proof.
  apply Forall_forall. intros r Hr. split.
  - eapply ranks_present_perm; [apply timed_starting_position|exact Hr].
  - eapply ranks_present; [apply timed_end_position|exact Hr].
Qed.

Lemma timed_NoDup :
  NoDup (map index (rows f)) -> NoDup (map index (rows (timed spline f))).
Proof.
  intros H. eapply Permutation_NoDup; [|exact H].
  apply Permutation_sym, timed_other; reflexivity.
Qed.

Lemma timed_lap_times :
  (exists r, In r (rows f) /\ lap_times_race r <> None) ->
  with_lap_times (rows (timed spline f)) <> [].
Proof.
  intros [r [Hr Hl]]. apply with_lap_times_nonempty.
  assert (H : In (lap_times_race r)
                 (map lap_times_race (rows (timed spline f)))).
  { eapply Permutation_in.
    - apply Permutation_sym, (timed_other lap_times_race); reflexivity.
    - now apply in_map. }
  apply in_map_iff in H. destruct H as [r' [E H]].
  exists r'. split; [exact H|]. now rewrite E.
Qed.

End Timed.

Section PipelineReturns.

Variable spline : list (nat * Q) -> nat -> option Q.

(** The pipeline returns on the tables described by [runs_through]. *)
Lemma run_result_calculations_returns (f : RaceResultsDataFrame)
    (out : list Output) :
  runs_through f ->
  _run_result_calculations spline {| self := f; stdout := out |}
  = Returned tt
      {| self := derived spline f;
         stdout :=
           out ++
           diagnostics (col_pos_last_lap (rows (timed spline f)))
                       (ranked_frame (rows (timed spline f))) |}.
Proof.
  intros [[Hc Hq] [Hfit Hlaps]].
  assert (Hname : has_column "name" f = true)
    by (apply Hc; simpl; auto).
  assert (Htime : has_column "time_until_starting_line_race" f = true)
    by (apply Hc; simpl; auto).
  assert (Hlap : has_column "lap_times_race" f = true)
    by (apply Hc; simpl; auto).
  assert (Hnum : has_column "num_laps_driven_race" f = true)
    by (apply Hc; simpl; auto).
  assert (Htotal : has_column "total_time_race" f = true)
    by (apply Hc; simpl; auto 10).
  pose (f1 := with_starting_position f).
  pose (f2 := with_end_position f1).
  assert (H1 : forall c, has_column c f = true -> has_column c f1 = true)
    by (intros c; apply has_column_with_starting_position).
  assert (Hs1 : has_column "starting_position_race" f1 = true)
    by apply has_column_assign_column_same.
  assert (H2 : forall c, has_column c f1 = true -> has_column c f2 = true)
    by (intros c; apply has_column_with_end_position).
  assert (He2 : has_column "end_position_race" f2 = true)
    by apply has_column_assign_column_same.
  assert (H3 : forall c, has_column c f2 = true ->
                         has_column c (timed spline f) = true)
    by (intros c; apply has_column_with_interpolated_time).
  assert (Hfit2 : interpolable
                    (map time_until_starting_line_race (rows f2)) = true).
  { rewrite <- Hfit. apply interpolable_Permutation.
    apply ranked_other; reflexivity. }
  unfold _run_result_calculations.
  rewrite (bind_returns _ _ _ _ _
             (calc_starting_position_returns
                {| self := f; stdout := out |} Htime Hq)).
  cbn [self stdout]. fold f1.
  rewrite (bind_returns _ _ _ _ _
             (calc_race_position_returns
                {| self := f1; stdout := out |}
                (H1 _ Hnum) (H1 _ Htotal) Hs1)).
  cbn [self stdout]. fold f2.
  rewrite (bind_returns _ _ _ _ _
             (interpolate_returns spline
                {| self := f2; stdout := out |}
                (H2 _ (H1 _ Htime)) Hfit2)).
  cbn [self stdout].
  change (with_interpolated_time spline f2) with (timed spline f).
  apply (calc_lap_positions_returns
           {| self := timed spline f; stdout := out |}).
  - apply H3, H2, H1, Hname.
  - apply H3, H2, H1, Htime.
  - apply H3, H2, H1, Hlap.
  - apply H3, H2, Hs1.
  - apply H3, He2.
  - now apply timed_lap_times.
Qed.

End PipelineReturns.

(** ** Step 4 at the end of the pipeline *)

(** ** Step 4 at the end of the pipeline *)

Lemma with_lap_times_laps (rs : list Row) :
  map snd (with_lap_times rs)
  = flat_map (fun o => match o with Some l => [l] | None => [] end)
             (map lap_times_race rs).
Proof.
  unfold with_lap_times. induction rs as [|r rs IH]; simpl; [reflexivity|].
  rewrite map_app, IH. destruct (lap_times_race r); reflexivity.
Qed.

Lemma total_laps_ext (rs rs' : list Row) :
  map lap_times_race rs = map lap_times_race rs' ->
  total_laps rs = total_laps rs'.
Proof.
  intros E. unfold total_laps. now rewrite !with_lap_times_laps, E.
Qed.

Lemma total_laps_bound (rs : list Row) (r : Row) (l : list Q) :
  In r rs -> lap_times_race r = Some l -> List.length l <= total_laps rs.
Proof.
  intros Hr Hl. unfold total_laps. apply width_bound.
  apply in_map_iff. exists (r, l). split; [reflexivity|].
  apply with_lap_times_In. auto.
Qed.

Section Derived.

Variable spline : list (nat * Q) -> nat -> option Q.
Variable f : RaceResultsDataFrame.

Lemma derived_total_laps :
  total_laps (rows (derived spline f))
  = total_laps (rows (timed spline f)).
Proof.
  apply total_laps_ext.
  apply (with_lap_positions_other lap_times_race (timed spline f)).
  reflexivity.
Qed.

(** The list in the row of a driver with lap times, after the pipeline. *)
Lemma derived_row (r' : Row) (l : list Q) :
  In r' (rows (derived spline f)) ->
  lap_times_race r' = Some l ->
  exists r0 l0 es s e,
    lap_positions_race r'
    = Some (stored_row (total_laps (rows (derived spline f))) r0 es) /\
    lap_cells (total_laps (rows (derived spline f))) l0 es /\
    starting_position_race r0 = Some s /\
    end_position_race r0 = Some e /\
    List.length l <= total_laps (rows (derived spline f)) /\
    (NoDup (map index (rows f)) ->
     l0 = l /\
     starting_position_race r' = Some s /\
     end_position_race r' = Some e).
Proof.
  intros H Hl.
  pose proof (total_laps_bound _ _ _ H Hl) as Hbound.
  rewrite derived_total_laps in *.
  change (derived spline f) with (with_lap_positions (timed spline f)) in H.
  destruct (with_lap_positions_stored _ _ _ H Hl)
    as [r [r0 [l0 [es [Hr [Hr0 [E [Hl0 [Hc Hnd]]]]]]]]].
  pose proof (timed_classified spline f) as Hcl.
  rewrite Forall_forall in Hcl.
  destruct (Hcl r0 Hr0) as [[s Hs] [e He]].
  exists r0, l0, es, s, e.
  split; [now rewrite E|].
  split; [exact Hc|]. split; [exact Hs|]. split; [exact He|].
  split; [exact Hbound|].
  intros Hf. specialize (Hnd (timed_NoDup spline f Hf)). subst r0.
  rewrite E in Hl |- *. simpl in *.
  split; [congruence|]. split; assumption.
Qed.

End Derived.

(** ** The stored lap positions *)

Lemma nth_repeat_lt {A : Type} (e d : A) :
  forall n k, k < n -> nth k (repeat e n) d = e.
Proof.
  induction n as [|n IH]; intros [|k] H; simpl; try lia; auto.
  apply IH. lia.
Qed.

(** The list stored for a driver without a lap: the grid slot, and the
    final position at every lap. *)
Lemma stored_row_without_laps (w : nat) (r : Row) (es : list (option nat))
    (s e : nat) :
  lap_cells w [] es ->
  starting_position_race r = Some s ->
  end_position_race r = Some e ->
  stored_row w r es = Some s :: repeat (Some e) w.
Proof.
  intros Hc Hs He.
  apply (nth_ext _ _ None None).
  - rewrite (stored_row_length w r [] es Hc). simpl.
    now rewrite repeat_length.
  - rewrite (stored_row_length w r [] es Hc). intros [|k] Hk.
    + exact (stored_row_first w r es s Hs).
    + rewrite (stored_row_after w r [] es e Hc He (S k)) by (simpl; lia).
      simpl. symmetry. apply nth_repeat_lt. lia.
Qed.

(** C1, as the code has it. After the pipeline the list stored as
    [lap_positions_race] for a driver with at least one recorded race lap
    has one entry more than the race has laps, the grid slot coming first,
    and none of its entries is missing. *)
Theorem lap_positions_race_length
    (spline : list (nat * Q) -> nat -> option Q)
    (f : RaceResultsDataFrame) (out : list Output) :
  runs_through f ->
  exists f' out',
    _run_result_calculations spline {| self := f; stdout := out |}
    = Returned tt {| self := f'; stdout := out' |} /\
    forall r a l,
      In r (rows f') -> lap_times_race r = Some (a :: l) ->
      exists ps,
        lap_positions_race r = Some ps /\
        List.length ps = S (total_laps (rows f')) /\
        Forall (fun x => x <> None) ps.
Proof.
  intros Hruns. eexists. eexists.
  split; [apply run_result_calculations_returns; exact Hruns|].
  intros r a l Hr Hl.
  destruct (derived_row spline f r (a :: l) Hr Hl)
    as [r0 [l0 [es [s [e [Hps [Hc [Hs [He _]]]]]]]]].
  eexists. split; [exact Hps|]. split.
  - eapply stored_row_length; eassumption.
  - eapply stored_row_full; eassumption.
Qed.

(** C2. After the pipeline, for a driver with at least one recorded race
    lap, the last entry of the stored [lap_positions_race] is the driver's
    [end_position_race]: the classification wins over the rank by time. *)
Theorem lap_positions_race_ends_with_end_position
    (spline : list (nat * Q) -> nat -> option Q)
    (f : RaceResultsDataFrame) (out : list Output) :
  runs_through f ->
  NoDup (map index (rows f)) ->
  exists f' out',
    _run_result_calculations spline {| self := f; stdout := out |}
    = Returned tt {| self := f'; stdout := out' |} /\
    forall r a l,
      In r (rows f') -> lap_times_race r = Some (a :: l) ->
      exists ps e,
        lap_positions_race r = Some ps /\
        end_position_race r = Some e /\
        last ps None = Some e.
Proof.
  intros Hruns Hnd. eexists. eexists.
  split; [apply run_result_calculations_returns; exact Hruns|].
  intros r a l Hr Hl.
  destruct (derived_row spline f r (a :: l) Hr Hl)
    as [r0 [l0 [es [s [e [Hps [Hc [Hs [He [Hw Hsame]]]]]]]]]].
  destruct (Hsame Hnd) as [_ [_ He']].
  eexists. exists e. split; [exact Hps|]. split; [exact He'|].
  eapply stored_row_last; try eassumption.
  cbn [List.length] in Hw. lia.
Qed.

(** C5. After the pipeline, for a driver who drove fewer laps than the
    race has, the stored [lap_positions_race] holds the driver's final
    position, [end_position_race], at every lap after the last one
    driven. *)
Theorem lap_positions_race_of_lapped_driver
    (spline : list (nat * Q) -> nat -> option Q)
    (f : RaceResultsDataFrame) (out : list Output) :
  runs_through f ->
  NoDup (map index (rows f)) ->
  exists f' out',
    _run_result_calculations spline {| self := f; stdout := out |}
    = Returned tt {| self := f'; stdout := out' |} /\
    forall r l,
      In r (rows f') -> lap_times_race r = Some l ->
      List.length l < total_laps (rows f') ->
      exists ps e,
        lap_positions_race r = Some ps /\
        end_position_race r = Some e /\
        forall lap,
          List.length l < lap <= total_laps (rows f') ->
          nth lap ps None = Some e.
Proof.
  intros Hruns Hnd. eexists. eexists.
  split; [apply run_result_calculations_returns; exact Hruns|].
  intros r l Hr Hl Hlapped.
  destruct (derived_row spline f r l Hr Hl)
    as [r0 [l0 [es [s [e [Hps [Hc [Hs [He [Hw Hsame]]]]]]]]]].
  destruct (Hsame Hnd) as [-> [_ He']].
  eexists. exists e. split; [exact Hps|]. split; [exact He'|].
  intros lap Hlap.
  eapply stored_row_after; eassumption.
Qed.

(** C9. After the pipeline, for every driver in the lap-position
    computation, the first entry of the stored [lap_positions_race] is the
    driver's [starting_position_race]. *)
Theorem lap_positions_race_starts_with_starting_position
    (spline : list (nat * Q) -> nat -> option Q)
    (f : RaceResultsDataFrame) (out : list Output) :
  runs_through f ->
  NoDup (map index (rows f)) ->
  exists f' out',
    _run_result_calculations spline {| self := f; stdout := out |}
    = Returned tt {| self := f'; stdout := out' |} /\
    forall r l,
      In r (rows f') -> lap_times_race r = Some l ->
      exists ps s,
        lap_positions_race r = Some ps /\
        starting_position_race r = Some s /\
        hd None ps = Some s.
Proof.
  intros Hruns Hnd. eexists. eexists.
  split; [apply run_result_calculations_returns; exact Hruns|].
  intros r l Hr Hl.
  destruct (derived_row spline f r l Hr Hl)
    as [r0 [l0 [es [s [e [Hps [Hc [Hs [He [Hw Hsame]]]]]]]]]].
  destruct (Hsame Hnd) as [_ [Hs' _]].
  eexists. exists s. split; [exact Hps|]. split; [exact Hs'|].
  rewrite hd_nth_0. eapply stored_row_first; eassumption.
Qed.

(** ** Drivers without laps *)

(** C8. A driver whose list of lap times is empty is not left out of the
    lap-position computation: the empty list is not a missing value, so
    step 4 keeps the row, ranks the driver at the start of the race, and
    stores a list for it like for every other driver, the grid slot
    followed by the final position at every lap. *)
Theorem driver_without_lap_times_is_not_excluded
    (spline : list (nat * Q) -> nat -> option Q)
    (f : RaceResultsDataFrame) (out : list Output) :
  runs_through f ->
  NoDup (map index (rows f)) ->
  exists f' out',
    _run_result_calculations spline {| self := f; stdout := out |}
    = Returned tt {| self := f'; stdout := out' |} /\
    forall r,
      In r (rows f') -> lap_times_race r = Some [] ->
      exists s e,
        starting_position_race r = Some s /\
        end_position_race r = Some e /\
        lap_positions_race r
        = Some (Some s :: repeat (Some e) (total_laps (rows f'))).
Proof.
  intros Hruns Hnd. eexists. eexists.
  split; [apply run_result_calculations_returns; exact Hruns|].
  intros r Hr Hl.
  destruct (derived_row spline f r [] Hr Hl)
    as [r0 [l0 [es [s [e [Hps [Hc [Hs [He [Hw Hsame]]]]]]]]]].
  destruct (Hsame Hnd) as [-> [Hs' He']].
  exists s, e. split; [exact Hs'|]. split; [exact He'|].
  rewrite Hps. f_equal. now apply stored_row_without_laps.
Qed.


(** ** Step 2: the classification *)

Lemma sorted_by_key {K : Type} (key : Row -> K) (R : Row -> Row -> Prop) :
  (forall a b a' b', key a = key a' -> key b = key b' -> R a b -> R a' b') ->
  forall l l',
    map key l = map key l' -> StronglySorted R l -> StronglySorted R l'.
Proof.
  intros HR. induction l as [|a l IH]; intros [|a' l'] E Hs;
    try discriminate; [constructor|].
  simpl in E. injection E as Ea El.
  apply StronglySorted_inv in Hs. destruct Hs as [Hs Ha].
  constructor; [now apply IH|].
  clear IH Hs. revert l' El.
  induction Ha as [|b l Hb Hl IH]; intros [|b' l'] El; try discriminate;
    [constructor|].
  simpl in El. injection El as Eb El.
  constructor; [eapply HR; eassumption | now apply IH].
Qed.

Lemma by_laps_time_grid_key (a b a' b' : Row) :
  classification_key a = classification_key a' ->
  classification_key b = classification_key b' ->
  by_laps_time_grid a b = by_laps_time_grid a' b'.
Proof.
  unfold classification_key, by_laps_time_grid, on.
  intros Ea Eb. injection Ea as -> -> ->. injection Eb as -> -> ->.
  reflexivity.
Qed.

Section Classification.

Variable spline : list (nat * Q) -> nat -> option Q.
Variable f : RaceResultsDataFrame.

Lemma derived_end_position :
  map end_position_race (rows (derived spline f))
  = map Some (seq 1 (participants f)).
Proof.
  change (derived spline f) with (with_lap_positions (timed spline f)).
  rewrite with_lap_positions_other by reflexivity.
  apply timed_end_position.
Qed.

Lemma derived_starting_position :
  Permutation (map starting_position_race (rows (derived spline f)))
              (map Some (seq 1 (participants f))).
Proof.
  change (derived spline f) with (with_lap_positions (timed spline f)).
  rewrite with_lap_positions_other by reflexivity.
  apply timed_starting_position.
Qed.

Lemma derived_sorted :
  StronglySorted (in_order by_laps_time_grid) (rows (derived spline f)).
Proof.
  apply (sorted_by_key classification_key (in_order by_laps_time_grid))
    with (l := sort_values by_laps_time_grid
                 (rows (with_starting_position f))).
  - intros a b a' b' Ea Eb. unfold in_order, leb_of.
    now rewrite (by_laps_time_grid_key a b a' b' Ea Eb).
  - change (derived spline f) with (with_lap_positions (timed spline f)).
    rewrite with_lap_positions_other by reflexivity.
    unfold timed.
    rewrite with_interpolated_time_other by reflexivity.
    rewrite with_end_position_other by reflexivity.
    reflexivity.
  - apply sort_values_sorted, Comparator_by_laps_time_grid.
Qed.

End Classification.

(** C4. After the pipeline [end_position_race] ranks the drivers 1..N by
    more laps driven first, then by smaller [total_time_race], then by
    smaller [starting_position_race]; [starting_position_race] and
    [end_position_race] are each a permutation of 1..N; a driver with more
    laps is classified before a driver with fewer, whatever the times. *)
Theorem end_position_ranks_drivers
    (spline : list (nat * Q) -> nat -> option Q)
    (f : RaceResultsDataFrame) (out : list Output) :
  runs_through f ->
  exists f' out',
    _run_result_calculations spline {| self := f; stdout := out |}
    = Returned tt {| self := f'; stdout := out' |} /\
    Permutation (map end_position_race (rows f'))
                (map Some (seq 1 (participants f))) /\
    Permutation (map starting_position_race (rows f'))
                (map Some (seq 1 (participants f))) /\
    (forall a b pa pb,
        In a (rows f') -> In b (rows f') ->
        end_position_race a = Some pa -> end_position_race b = Some pb ->
        (pa < pb -> in_order by_laps_time_grid a b) /\
        (by_laps_time_grid a b = Lt -> pa < pb)) /\
    (forall a b n m pa pb,
        In a (rows f') -> In b (rows f') ->
        num_laps_driven_race a = Some n ->
        num_laps_driven_race b = Some m ->
        m < n ->
        end_position_race a = Some pa -> end_position_race b = Some pb ->
        pa < pb).
Proof.
  intros Hruns. eexists. eexists.
  split; [apply run_result_calculations_returns; exact Hruns|].
  pose proof (ranks_follow_order by_laps_time_grid end_position_race
                (rows (derived spline f)) (participants f)
                (derived_end_position spline f)
                (derived_sorted spline f)) as Horder.
  split; [rewrite derived_end_position; apply Permutation_refl|].
  split; [apply derived_starting_position|].
  split; [exact Horder|].
  intros a b n m pa pb Ha Hb Hn Hm Hlt Hpa Hpb.
  apply (Horder a b pa pb Ha Hb Hpa Hpb).
  unfold by_laps_time_grid, on, descending. rewrite Hn, Hm.
  cbn [na_last then_by].
  apply Nat.compare_lt_iff in Hlt. rewrite Hlt. reflexivity.
Qed.

(** ** Step 3: the series that is interpolated *)

(** Where no two drivers need the same time to the line, the grid is the
    one a stable sort gives. *)
Lemma with_starting_position_no_ties (f : RaceResultsDataFrame) :
  has_quali_data f = false ->
  no_ties by_time_until_starting_line_race (rows f) = true ->
  with_starting_position f
  = assign_column "starting_position_race" set_starting_position_race
      (map Some (range1 (participants f)))
      {| rows := sort_values by_time_until_starting_line_race (rows f);
         columns := columns f |}.
Proof.
  intros Hq Hties. unfold with_starting_position, grid_order.
  rewrite Hq.
  rewrite (quicksort_no_ties by_time_until_starting_line_race (rows f) Hties).
  unfold participants. cbn [rows]. now rewrite sort_values_length.
Qed.

(** C6, at an input where grid and classification differ. The index under
    which step 3 puts a driver's time to the line is the driver's end
    position, the row order left by step 2, and not the starting position:
    A, first on the grid, stands under index 2. The missing value of D is
    asked from the routine with the points (1, 3), (2, 1), (3, 2); under
    the starting grid they would be (1, 1), (2, 2), (3, 3). With the
    parabola through the points the code stores 6 where the grid gives 4.
    The values that were present stay as they were. *)
Theorem interpolation_is_indexed_by_end_position :
  let g := with_end_position (with_starting_position interpolation_example) in
  positions g
  = [("C", Some 3, Some 1); ("A", Some 1, Some 2);
     ("B", Some 2, Some 3); ("D", Some 4, Some 4)] /\
  reindexed_series g
  = [(1, Some (3 # 1)%Q); (2, Some (1 # 1)%Q); (3, Some (2 # 1)%Q);
     (4, None)] /\
  series_by_starting_grid g
  = [(1, Some (1 # 1)%Q); (2, Some (2 # 1)%Q); (3, Some (3 # 1)%Q);
     (4, None)] /\
  (forall spline,
      column time_until_starting_line_race
        (derived spline interpolation_example)
      = [("C", Some (3 # 1)%Q); ("A", Some (1 # 1)%Q); ("B", Some (2 # 1)%Q);
         ("D", spline [(1, (3 # 1)%Q); (2, (1 # 1)%Q); (3, (2 # 1)%Q)] 4)]) /\
  (exists v v',
      polynomial_through (present_points (reindexed_series g)) 4 = Some v /\
      polynomial_through (present_points (series_by_starting_grid g)) 4
      = Some v' /\
      (v == 6 # 1)%Q /\ (v' == 4 # 1)%Q).
Proof.
  cbv zeta.
  pose proof (with_starting_position_no_ties interpolation_example
                eq_refl eq_refl) as Hgrid.
  split; [rewrite Hgrid; vm_compute; reflexivity|].
  split; [rewrite Hgrid; vm_compute; reflexivity|].
  split; [rewrite Hgrid; vm_compute; reflexivity|].
  split.
  - intros spline.
    change (derived spline interpolation_example)
      with (with_lap_positions (timed spline interpolation_example)).
    unfold column.
    rewrite (with_lap_positions_other
               (fun r => (name r, time_until_starting_line_race r)))
      by reflexivity.
    unfold timed. rewrite Hgrid.
    vm_compute. reflexivity.
  - rewrite Hgrid. eexists. eexists.
    split; [vm_compute; reflexivity|].
    split; [vm_compute; reflexivity|].
    split; reflexivity.
Qed.


(** ** The lap-position view *)

Lemma has_lap_positions_race (f : RaceResultsDataFrame) :
  has_column "lap_positions_race" (with_lap_positions f) = true.
Proof.
  change (has_column "lap_positions_race"
            (assign_column "lap_positions_race" set_lap_positions_race
               (map (fun _ => None) (rows f)) f) = true).
  apply has_column_assign_column_same.
Qed.

Lemma lists_of_map_Some {A : Type} (ls : list A) :
  lists_of (map Some ls) = Some ls.
Proof.
  induction ls as [|l ls IH]; simpl; [reflexivity|]. now rewrite IH.
Qed.

Lemma width_le {A : Type} (ls : list (list A)) (n : nat) :
  Forall (fun l => List.length l = n) ls -> width ls <= n.
Proof.
  induction 1 as [|l ls Hl _ IH]; simpl; lia.
Qed.

Lemma filled_to_id (w : nat) (l : list (option nat)) :
  w <= List.length l -> filled_to w l = l.
Proof.
  intros H. unfold filled_to.
  replace (w - List.length l) with 0 by lia. apply app_nil_r.
Qed.

(** Lists of one length are the rows of the frame, as they are. *)
Lemma pd_DataFrame_lists (ps : list (list (option nat))) (n : nat)
    (w : World) :
  Forall (fun l => List.length l = n) ps ->
  pd_DataFrame (map Some ps) w = Returned (of_rows ps) w.
Proof.
  intros H. destruct ps as [|p ps]; [reflexivity|].
  unfold pd_DataFrame.
  change (Some p :: map Some ps) with (map Some (p :: ps)).
  cbn [map]. rewrite <- (map_cons Some p ps), lists_of_map_Some.
  unfold ret. do 2 f_equal.
  transitivity (map (fun l : list (option nat) => l) (p :: ps));
    [|apply map_id].
  apply map_ext_in.
  intros l Hl. apply filled_to_id.
  rewrite Forall_forall in H. rewrite (H l Hl).
  apply width_le. now apply Forall_forall.
Qed.

Lemma pd_DataFrame_missing (p : list (option nat))
    (cells : list (option (list (option nat)))) (w : World) :
  In None cells -> pd_DataFrame (Some p :: cells) w = Raised TypeError.
Proof.
  intros H. unfold pd_DataFrame.
  assert (E : lists_of (Some p :: cells) = None).
  { simpl. assert (G : lists_of cells = None).
    { clear p. induction cells as [|c cells IH]; [destruct H|].
      destruct H as [->|H]; [reflexivity|].
      simpl. destruct c; [|reflexivity]. now rewrite (IH H). }
    now rewrite G. }
  now rewrite E.
Qed.

Lemma stored_lists_complete (f : RaceResultsDataFrame) :
  Forall (fun r => lap_positions_race r <> None) (rows f) ->
  map lap_positions_race (rows f) = map Some (stored_lists f).
Proof.
  unfold stored_lists. induction 1 as [|r rs Hr _ IH]; [reflexivity|].
  cbn [map flat_map]. rewrite IH.
  destruct (lap_positions_race r); [reflexivity | contradiction].
Qed.

Lemma stored_lists_In (f : RaceResultsDataFrame) (ps : list (option nat)) :
  In ps (stored_lists f) ->
  exists r, In r (rows f) /\ lap_positions_race r = Some ps.
Proof.
  unfold stored_lists. rewrite in_flat_map. intros [r [Hr H]].
  exists r. split; [exact Hr|].
  destruct (lap_positions_race r) as [v|]; [|destruct H].
  destruct H as [->|[]]. reflexivity.
Qed.

(** Where every driver has lap times, step 4 leaves every driver a list. *)
Lemma with_lap_positions_all (f : RaceResultsDataFrame) :
  Forall (fun r => lap_times_race r <> None) (rows f) ->
  Forall (fun r => lap_positions_race r <> None)
         (rows (with_lap_positions f)).
Proof.
  intros Hall. apply Forall_forall. intros r' Hr'.
  apply with_lap_positions_In in Hr'.
  destruct Hr' as [r [Hr [[-> Hno]|[v [Hv ->]]]]]; [|discriminate].
  rewrite Forall_forall in Hall. specialize (Hall r Hr).
  destruct (lap_times_race r) as [l|] eqn:El; [|congruence].
  destruct (lap_table_complete _ r l Hr El) as [ps Hps].
  destruct (Hno ps Hps).
Qed.

(** The lists step 4 stores all have one entry more than the race has
    laps. *)
Lemma with_lap_positions_lengths (f : RaceResultsDataFrame) :
  Forall (fun ps => List.length ps = S (total_laps (rows f)))
         (stored_lists (with_lap_positions f)).
Proof.
  apply Forall_forall. intros ps Hps.
  apply stored_lists_In in Hps. destruct Hps as [r' [Hr' E]].
  apply with_lap_positions_In in Hr'.
  destruct Hr' as [r [Hr [[-> Hno]|[v [Hv ->]]]]]; [discriminate|].
  injection E as <-. apply lap_table_In in Hv.
  destruct Hv as [r0 [l0 [es [_ [_ [_ [Hc ->]]]]]]].
  eapply stored_row_length; eassumption.
Qed.

(** The view of a table that has a list for every driver. *)
Lemma lap_position_table_reads (w : World) (n : nat) :
  has_column "lap_positions_race" (self w) = true ->
  has_column "name" (self w) = true ->
  Forall (fun r => lap_positions_race r <> None) (rows (self w)) ->
  Forall (fun ps => List.length ps = n) (stored_lists (self w)) ->
  lap_position_table w
  = Returned (map name (rows (self w)), of_rows (stored_lists (self w))) w.
Proof.
  intros Hcol Hname Hall Hlen.
  unfold lap_position_table, getitem, bind, get_self, ret, raise.
  rewrite Hcol. cbv iota beta. rewrite Hcol. cbv iota beta.
  rewrite (stored_lists_complete (self w) Hall).
  rewrite (pd_DataFrame_lists _ n w Hlen).
  rewrite Hname. reflexivity.
Qed.




(** * Further properties of the code *)

(** ** Step 1 again: who starts behind whom *)

(** X4. On the grid a driver stands before every driver with a larger
    time to the line, and before every driver whose time to the line is
    missing (who did not finish); with qualifying data the fastest
    qualifying lap decides first, a missing one standing last, and the time
    to the line decides among equal qualifying laps. *)
Theorem starting_grid_in_plain_terms
    (f : RaceResultsDataFrame) (out : list Output) :
  has_column "time_until_starting_line_race" f = true ->
  (has_quali_data f = true -> has_column "fastest_lap_time_quali" f = true) ->
  exists f',
    __calc_starting_position {| self := f; stdout := out |}
    = Returned tt {| self := f'; stdout := out |} /\
    forall a b pa pb,
      In a (rows f') -> In b (rows f') ->
      starting_position_race a = Some pa ->
      starting_position_race b = Some pb ->
      (has_quali_data f = false ->
       forall x,
         time_until_starting_line_race a = Some x ->
         match time_until_starting_line_race b with
         | Some y => (x < y)%Q -> pa < pb
         | None => pa < pb
         end) /\
      (has_quali_data f = true ->
       forall x,
         fastest_lap_time_quali a = Some x ->
         match fastest_lap_time_quali b with
         | Some y =>
             ((x < y)%Q -> pa < pb) /\
             ((x == y)%Q ->
              forall t,
                time_until_starting_line_race a = Some t ->
                match time_until_starting_line_race b with
                | Some u => (t < u)%Q -> pa < pb
                | None => pa < pb
                end)
         | None => pa < pb
         end).
Proof.
  intros Ht Hq. exists (with_starting_position f).
  split.
  { apply (calc_starting_position_returns {| self := f; stdout := out |});
      assumption. }
  intros a b pa pb Ha Hb Hpa Hpb.
  pose proof (ranks_follow_order (starting_key f) starting_position_race
                (rows (with_starting_position f)) (participants f)
                (with_starting_position_ranks f)
                (with_starting_position_sorted f)
                a b pa pb Ha Hb Hpa Hpb) as [_ Hlt].
  unfold starting_key in Hlt.
  split; intros Hquali; rewrite Hquali in Hlt; intros x Hx.
  - unfold by_time_until_starting_line_race, on, ascending in Hlt.
    rewrite Hx in Hlt.
    destruct (time_until_starting_line_race b) as [y|]; simpl in Hlt.
    + intros Hxy. apply Hlt. now apply Qcompare_Lt.
    + now apply Hlt.
  - unfold by_quali_then_starting_line, on, ascending in Hlt.
    rewrite Hx in Hlt.
    destruct (fastest_lap_time_quali b) as [y|]; simpl in Hlt.
    + split.
      * intros Hxy. apply Hlt. now rewrite (Qcompare_Lt x y Hxy).
      * intros Hxy t Htime. rewrite (Qcompare_Eq x y Hxy) in Hlt.
        simpl in Hlt. rewrite Htime in Hlt.
        destruct (time_until_starting_line_race b) as [u|]; simpl in Hlt.
        -- intros Htu. apply Hlt. now apply Qcompare_Lt.
        -- now apply Hlt.
    + now apply Hlt.
Qed.

(** ** Steps 1 and 2 again: running them twice, running them too early *)

Lemma sort_values_id {A : Type} (cmp : A -> A -> comparison) (l : list A) :
  StronglySorted (in_order cmp) l -> sort_values cmp l = l.
Proof.
  induction 1 as [|a l Hs IH Ha]; simpl; [reflexivity|].
  rewrite IH. destruct l as [|b l]; [reflexivity|].
  simpl. inversion Ha as [|b' l' Hab Hl]; subst.
  unfold in_order in Hab. now rewrite Hab.
Qed.

Lemma assigned_twice {T V : Type} (set : V -> T -> T) :
  (forall v v' r, set v (set v' r) = set v r) ->
  forall rs vs, assigned set (assigned set rs vs) vs = assigned set rs vs.
Proof.
  intros Hset. unfold assigned.
  induction rs as [|r rs IH]; intros [|v vs]; simpl; try reflexivity.
  now rewrite Hset, IH.
Qed.

Lemma frame_ext (a b : RaceResultsDataFrame) :
  rows a = rows b -> columns a = columns b -> a = b.
Proof. destruct a, b. simpl. now intros -> ->. Qed.

Lemma has_quali_data_assign_column {V : Type} (c : string)
    (set : V -> Row -> Row) (vs : list V) (f : RaceResultsDataFrame) :
  endswith "_quali" c = false ->
  has_quali_data (assign_column c set vs f) = has_quali_data f.
Proof.
  intros Hc. unfold has_quali_data, assign_column. simpl.
  destruct (has_column c f); [reflexivity|].
  rewrite existsb_app. simpl. rewrite Hc. now rewrite !orb_false_r.
Qed.

Lemma columns_assign_column_present {V : Type} (c : string)
    (set : V -> Row -> Row) (vs : list V) (f : RaceResultsDataFrame) :
  has_column c f = true -> columns (assign_column c set vs f) = columns f.
Proof. intros H. unfold assign_column. simpl. now rewrite H. Qed.

Lemma with_end_position_sorted (f : RaceResultsDataFrame) :
  StronglySorted (in_order by_laps_time_grid) (rows (with_end_position f)).
Proof.
  rewrite with_end_position_rows. apply assigned_sorted.
  - intros v w a b H. exact H.
  - apply sort_values_sorted, Comparator_by_laps_time_grid.
Qed.


Lemma no_ties_NoDup {A : Type} (cmp : A -> A -> comparison)
    `{!Comparator cmp} (l : list A) :
  no_ties cmp l = true -> NoDup l.
Proof.
  induction l as [|a l IH]; intros H; [constructor|].
  simpl in H. apply andb_prop in H. destruct H as [Ha Hl].
  constructor; [|now apply IH].
  intros Hin. rewrite forallb_forall in Ha. specialize (Ha a Hin).
  unfold tied in Ha. rewrite (cmp_refl cmp) in Ha. discriminate.
Qed.

Lemma combine_NoDup_value {T V : Type} (l : list T) :
  NoDup l ->
  forall (vs : list V) a v v',
    In (a, v) (combine l vs) -> In (a, v') (combine l vs) -> v = v'.
Proof.
  induction 1 as [|x l Hx _ IH]; intros [|u vs] a v v' H H';
    simpl in *; try contradiction.
  destruct H as [E|H], H' as [E'|H'].
  - congruence.
  - injection E as -> _. apply in_combine_l in H'. contradiction.
  - injection E' as -> _. apply in_combine_l in H. contradiction.
  - eapply IH; eassumption.
Qed.

(** A grid without two equal times to the line has no two rows with the
    same key either. *)
Lemma with_starting_position_no_tie (f : RaceResultsDataFrame) :
  no_ties by_time_until_starting_line_race (rows f) = true ->
  forall a b,
    In a (rows (with_starting_position f)) ->
    In b (rows (with_starting_position f)) ->
    by_time_until_starting_line_race a b = Eq -> a = b.
Proof.
  intros Hties a' b' Ha Hb E.
  rewrite with_starting_position_rows in Ha, Hb.
  unfold assigned in Ha, Hb.
  apply in_map_iff in Ha, Hb.
  destruct Ha as [[a v] [<- Ha]], Hb as [[b v'] [<- Hb]].
  cbn [fst snd] in *.
  assert (Hab : a = b).
  { apply (no_ties_spec by_time_until_starting_line_race (rows f) Hties).
    - eapply Permutation_in; [apply grid_order_perm|].
      eapply in_combine_l; exact Ha.
    - eapply Permutation_in; [apply grid_order_perm|].
      eapply in_combine_l; exact Hb.
    - exact E. }
  subst b. f_equal.
  eapply (combine_NoDup_value (grid_order f)); [|exact Ha|exact Hb].
  eapply Permutation_NoDup; [apply Permutation_sym, grid_order_perm|].
  now apply (no_ties_NoDup by_time_until_starting_line_race).
Qed.

Lemma has_quali_data_with_starting_position (f : RaceResultsDataFrame) :
  has_quali_data (with_starting_position f) = has_quali_data f.
Proof.
  unfold with_starting_position.
  now rewrite has_quali_data_assign_column.
Qed.

Lemma grid_order_twice (f : RaceResultsDataFrame) :
  has_quali_data f = true \/
  no_ties by_time_until_starting_line_race (rows f) = true ->
  grid_order (with_starting_position f) = rows (with_starting_position f).
Proof.
  intros H. pose proof (with_starting_position_sorted f) as Hs.
  unfold grid_order. rewrite has_quali_data_with_starting_position.
  unfold starting_key in Hs.
  destruct (has_quali_data f) eqn:Hq.
  - now apply sort_values_id.
  - destruct H as [H|H]; [discriminate|].
    apply (sorted_unique by_time_until_starting_line_race).
    + apply quicksort_Permutation.
    + apply quicksort_StronglySorted,
        Comparator_by_time_until_starting_line_race.
    + exact Hs.
    + intros a b Ha Hb. apply quicksort_In in Ha, Hb.
      now apply (with_starting_position_no_tie f H).
Qed.

Lemma with_starting_position_twice (f : RaceResultsDataFrame) :
  has_quali_data f = true \/
  no_ties by_time_until_starting_line_race (rows f) = true ->
  with_starting_position (with_starting_position f)
  = with_starting_position f.
Proof.
  intros H. apply frame_ext.
  - rewrite (with_starting_position_rows (with_starting_position f)).
    rewrite (grid_order_twice f H).
    rewrite with_starting_position_length.
    rewrite with_starting_position_rows.
    apply assigned_twice. reflexivity.
  - unfold with_starting_position at 1. cbn [columns assign_column].
    change (has_column "starting_position_race"
              {| rows := grid_order (with_starting_position f);
                 columns := columns (with_starting_position f) |})
      with (has_column "starting_position_race" (with_starting_position f)).
    unfold with_starting_position at 1.
    now rewrite has_column_assign_column_same.
Qed.

Lemma with_end_position_twice (f : RaceResultsDataFrame) :
  with_end_position (with_end_position f) = with_end_position f.
Proof.
  apply frame_ext.
  - rewrite (with_end_position_rows (with_end_position f)).
    rewrite (sort_values_id _ _ (with_end_position_sorted f)).
    rewrite with_end_position_length.
    rewrite with_end_position_rows.
    apply assigned_twice. reflexivity.
  - unfold with_end_position at 1. cbn [columns assign_column].
    change (has_column "end_position_race"
              {| rows := sort_values by_laps_time_grid
                           (rows (with_end_position f));
                 columns := columns (with_end_position f) |})
      with (has_column "end_position_race" (with_end_position f)).
    unfold with_end_position at 1.
    now rewrite has_column_assign_column_same.
Qed.

(** X5. Running step 2 a second time right after the first changes
    nothing: the rows are already in the order of the keys, the stable
    sort by several keys leaves them there, and the same ranks are written
    again. So for step 1 on a table with qualifying data, and on a table
    without where no two drivers need the same time to the line; where
    two do, the sort by one key may put them the other way round. *)
Theorem ranking_steps_are_idempotent (w : World) :
  has_column "time_until_starting_line_race" (self w) = true ->
  (has_quali_data (self w) = true ->
   has_column "fastest_lap_time_quali" (self w) = true) ->
  has_column "num_laps_driven_race" (self w) = true ->
  has_column "total_time_race" (self w) = true ->
  exists w1 w2,
    __calc_starting_position w = Returned tt w1 /\
    __calc_race_position w1 = Returned tt w2 /\
    __calc_race_position w2 = Returned tt w2 /\
    (has_quali_data (self w) = true \/
     no_ties by_time_until_starting_line_race (rows (self w)) = true ->
     __calc_starting_position w1 = Returned tt w1).
Proof.
  intros Ht Hq Hn Htot.
  set (f := self w) in *.
  exists {| self := with_starting_position f; stdout := stdout w |}.
  exists {| self := with_end_position (with_starting_position f);
            stdout := stdout w |}.
  assert (Hs1 : has_column "starting_position_race"
                  (with_starting_position f) = true)
    by apply has_column_assign_column_same.
  split; [exact (calc_starting_position_returns w Ht Hq)|].
  split.
  { apply (calc_race_position_returns
             {| self := with_starting_position f; stdout := stdout w |}).
    - now apply has_column_with_starting_position.
    - now apply has_column_with_starting_position.
    - exact Hs1. }
  split.
  { rewrite (calc_race_position_returns
               {| self := with_end_position (with_starting_position f);
                  stdout := stdout w |}).
    - cbn [self stdout]. now rewrite with_end_position_twice.
    - now apply has_column_with_end_position,
        has_column_with_starting_position.
    - now apply has_column_with_end_position,
        has_column_with_starting_position.
    - now apply has_column_with_end_position. }
  intros Hties.
  rewrite (calc_starting_position_returns
             {| self := with_starting_position f; stdout := stdout w |}).
  - cbn [self stdout]. now rewrite (with_starting_position_twice f Hties).
  - now apply has_column_with_starting_position.
  - cbn [self]. rewrite has_quali_data_with_starting_position. intros H.
    now apply has_column_with_starting_position, Hq.
Qed.

(** X6. The steps depend on one another through the columns they read: on
    a table that has the raw columns but not yet
    [starting_position_race], step 2, step 4 and the lap-position view
    each raise [KeyError] for that column. *)
Theorem later_steps_need_the_starting_position (w : World) :
  ready (self w) ->
  has_column "starting_position_race" (self w) = false ->
  has_column "lap_positions_race" (self w) = false ->
  __calc_race_position w = Raised (KeyError "starting_position_race") /\
  __calc_lap_positions w = Raised (KeyError "starting_position_race") /\
  lap_position_table w = Raised (KeyError "starting_position_race").
Proof.
  intros [Hc _] Hno Hlap.
  assert (Hname : has_column "name" (self w) = true)
    by (apply Hc; simpl; auto).
  assert (Htime : has_column "time_until_starting_line_race" (self w) = true)
    by (apply Hc; simpl; auto).
  assert (Hlaps : has_column "lap_times_race" (self w) = true)
    by (apply Hc; simpl; auto).
  assert (Hnum : has_column "num_laps_driven_race" (self w) = true)
    by (apply Hc; simpl; auto).
  assert (Htotal : has_column "total_time_race" (self w) = true)
    by (apply Hc; simpl; auto 10).
  assert (Hstep4 : __calc_lap_positions w
                   = Raised (KeyError "starting_position_race")).
  { unfold __calc_lap_positions, bind at 1.
    unfold getitems, getitem, bind, get_self, ret, raise.
    rewrite Hlaps. cbv iota. rewrite Hname. cbv iota.
    rewrite Htime. cbv iota. rewrite Hlaps. cbv iota.
    rewrite Hno. reflexivity. }
  split; [|split].
  - unfold __calc_race_position, sort_values_inplace, bind at 1 2.
    unfold getitems, getitem, bind, get_self, ret, raise.
    rewrite Hnum. cbv iota. rewrite Htotal. cbv iota.
    rewrite Hno. reflexivity.
  - exact Hstep4.
  - unfold lap_position_table, bind at 1 2. unfold get_self at 1.
    rewrite Hlap. unfold bind at 1. rewrite Hstep4. reflexivity.
Qed.

(** ** Step 2 again: the tie-breaks *)

(** X7. In the classification a driver with laps stands before every
    driver without; among drivers with the same number of laps the smaller
    total time stands first and a missing total time last; and where laps
    and total time tie, the better grid slot stands first. *)
Theorem classification_in_plain_terms
    (spline : list (nat * Q) -> nat -> option Q)
    (f : RaceResultsDataFrame) (out : list Output) :
  runs_through f ->
  exists f' out',
    _run_result_calculations spline {| self := f; stdout := out |}
    = Returned tt {| self := f'; stdout := out' |} /\
    forall a b pa pb,
      In a (rows f') -> In b (rows f') ->
      end_position_race a = Some pa -> end_position_race b = Some pb ->
      (forall n,
          num_laps_driven_race a = Some n ->
          num_laps_driven_race b = None -> pa < pb) /\
      (forall x,
          num_laps_driven_race a = num_laps_driven_race b ->
          total_time_race a = Some x ->
          match total_time_race b with
          | Some y => (x < y)%Q -> pa < pb
          | None => pa < pb
          end) /\
      (forall sa sb,
          num_laps_driven_race a = num_laps_driven_race b ->
          (total_time_race a = None /\ total_time_race b = None \/
           exists x y, total_time_race a = Some x /\
                       total_time_race b = Some y /\ (x == y)%Q) ->
          starting_position_race a = Some sa ->
          starting_position_race b = Some sb ->
          sa < sb -> pa < pb).
Proof.
  intros Hruns. eexists. eexists.
  split; [apply run_result_calculations_returns; exact Hruns|].
  intros a b pa pb Ha Hb Hpa Hpb.
  pose proof (ranks_follow_order by_laps_time_grid end_position_race
                (rows (derived spline f)) (participants f)
                (derived_end_position spline f)
                (derived_sorted spline f) a b pa pb Ha Hb Hpa Hpb)
    as [_ Hlt].
  assert (Hlaps : num_laps_driven_race a = num_laps_driven_race b ->
                  on num_laps_driven_race (descending Nat.compare) a b = Eq).
  { intros E. unfold on, descending. rewrite E.
    destruct (num_laps_driven_race b); simpl; [apply Nat.compare_refl|].
    reflexivity. }
  unfold by_laps_time_grid in Hlt.
  split; [|split].
  - intros n Hn Hm. apply Hlt.
    unfold on, descending. rewrite Hn, Hm. reflexivity.
  - intros x E Hx. rewrite (Hlaps E) in Hlt. simpl in Hlt.
    unfold on, ascending in Hlt. rewrite Hx in Hlt.
    destruct (total_time_race b) as [y|]; simpl in Hlt.
    + intros Hxy. apply Hlt. rewrite (Qcompare_Lt x y Hxy). reflexivity.
    + apply Hlt. reflexivity.
  - intros sa sb E Htie Hsa Hsb Hs. rewrite (Hlaps E) in Hlt.
    simpl in Hlt. apply Hlt.
    unfold on, ascending. rewrite Hsa, Hsb.
    destruct Htie as [[-> ->]|[x [y [-> [-> Hxy]]]]]; simpl.
    + apply Nat.compare_lt_iff. exact Hs.
    + rewrite (Qcompare_Eq x y Hxy). simpl. apply Nat.compare_lt_iff.
      exact Hs.
Qed.

(** ** Step 3 again: what the interpolation leaves alone, and when it fails *)

Lemma map_snd_combine_same {X Y : Type} (ys : list Y) :
  forall xs : list X,
    List.length xs = List.length ys -> map snd (combine xs ys) = ys.
Proof.
  induction ys as [|y ys IH]; intros [|x xs] E; try discriminate;
    [reflexivity|].
  simpl in *. f_equal. apply IH. lia.
Qed.

Lemma filled_present (F : nat -> option Q) (ys : list (option Q)) :
  forall xs i v,
    List.length xs = List.length ys ->
    nth i ys None = Some v ->
    nth i (map (fun xy => match snd xy with
                          | Some y => Some y
                          | None => F (fst xy)
                          end) (combine xs ys)) None = Some v.
Proof.
  induction ys as [|y ys IH]; intros [|x xs] [|i] v Hlen Hv;
    simpl in *; try discriminate.
  - now rewrite Hv.
  - apply IH; [lia | exact Hv].
Qed.

Lemma filled_complete (F : nat -> option Q) (ys : list (option Q)) :
  forall xs,
    List.length xs = List.length ys ->
    Forall (fun y => y <> None) ys ->
    map (fun xy => match snd xy with
                   | Some y => Some y
                   | None => F (fst xy)
                   end) (combine xs ys) = ys.
Proof.
  induction ys as [|y ys IH]; intros [|x xs] Hlen Hall;
    simpl in *; try discriminate; try reflexivity.
  inversion Hall as [|y' ys' Hy Hys]; subst.
  rewrite IH by (lia || assumption).
  destruct y; [reflexivity | contradiction].
Qed.

Lemma interpolated_present (spline : list (nat * Q) -> nat -> option Q)
    (xs : list nat) (ys : list (option Q)) (i : nat) (v : Q) :
  List.length xs = List.length ys ->
  nth i ys None = Some v ->
  nth i (interpolated spline (combine xs ys)) None = Some v.
Proof.
  intros Hlen Hv. unfold interpolated.
  destruct (present_points (combine xs ys)).
  - now rewrite map_snd_combine_same.
  - now apply filled_present.
Qed.

Lemma interpolated_complete (spline : list (nat * Q) -> nat -> option Q)
    (xs : list nat) (ys : list (option Q)) :
  List.length xs = List.length ys ->
  Forall (fun y => y <> None) ys ->
  interpolated spline (combine xs ys) = ys.
Proof.
  intros Hlen Hall. unfold interpolated.
  destruct (present_points (combine xs ys)).
  - now apply map_snd_combine_same.
  - now apply filled_complete.
Qed.

Lemma assigned_same_value (rs : list Row) :
  assigned set_time_until_starting_line_race rs
    (map time_until_starting_line_race rs) = rs.
Proof.
  unfold assigned. induction rs as [|r rs IH]; simpl; [reflexivity|].
  rewrite IH. now destruct r.
Qed.

(** X8. On a column without a gap, or with more than two values, step 3
    returns. It keeps every time to the line that is present, in its row;
    it changes no other column, moves no row and prints nothing, whatever
    the interpolation routine; and on a column without a gap it changes
    nothing at all. *)
Theorem interpolation_keeps_present_values
    (spline : list (nat * Q) -> nat -> option Q) (w : World) :
  has_column "time_until_starting_line_race" (self w) = true ->
  interpolable (map time_until_starting_line_race (rows (self w))) = true ->
  exists f',
    __interpolate_time_until_starting_line_race spline w
    = Returned tt {| self := f'; stdout := stdout w |} /\
    columns f' = columns (self w) /\
    map untimed (rows f') = map untimed (rows (self w)) /\
    (forall i v,
        nth i (map time_until_starting_line_race (rows (self w))) None
        = Some v ->
        nth i (map time_until_starting_line_race (rows f')) None = Some v) /\
    (Forall (fun r => time_until_starting_line_race r <> None)
            (rows (self w)) ->
     f' = self w).
Proof.
  intros Ht Hfit. exists (with_interpolated_time spline (self w)).
  assert (Hvalues :
            map time_until_starting_line_race
                (rows (with_interpolated_time spline (self w)))
            = interpolated spline (reindexed_series (self w))).
  { unfold with_interpolated_time. rewrite assign_column_rows.
    rewrite (assigned_this set_time_until_starting_line_race
               time_until_starting_line_race (fun v => v)).
    - apply map_id.
    - reflexivity.
    - apply interpolated_length. }
  assert (Hlen : List.length (range1 (participants (self w)))
                 = List.length
                     (map time_until_starting_line_race (rows (self w)))).
  { unfold range1, participants. now rewrite length_seq, length_map. }
  assert (Hcols : columns (with_interpolated_time spline (self w))
                  = columns (self w)).
  { unfold with_interpolated_time.
    now apply columns_assign_column_present. }
  split; [now apply interpolate_returns|].
  split; [exact Hcols|].
  split; [now apply with_interpolated_time_other|].
  split.
  - intros i v Hv. rewrite Hvalues.
    unfold reindexed_series. now apply interpolated_present.
  - intros Hall. apply frame_ext; [|exact Hcols].
    unfold with_interpolated_time. rewrite assign_column_rows.
    unfold reindexed_series.
    rewrite interpolated_complete.
    + apply assigned_same_value.
    + exact Hlen.
    + apply Forall_forall. intros y Hy. apply in_map_iff in Hy.
      destruct Hy as [r [<- Hr]]. rewrite Forall_forall in Hall.
      now apply Hall.
Qed.

(** X12. Where one or two drivers have a time to the line and another has
    none, the pipeline does not return: steps 1 and 2 run, and step 3
    raises the error of the spline fit, which needs three points. *)
Theorem pipeline_needs_three_times_to_the_line
    (spline : list (nat * Q) -> nat -> option Q)
    (f : RaceResultsDataFrame) (out : list Output) :
  ready f ->
  1 <= count_present (map time_until_starting_line_race (rows f)) <= 2 ->
  count_present (map time_until_starting_line_race (rows f))
  < participants f ->
  _run_result_calculations spline {| self := f; stdout := out |}
  = Raised dfitpack_error.
Proof.
  intros [Hc Hq] Hn Hgap.
  assert (Htime : has_column "time_until_starting_line_race" f = true)
    by (apply Hc; simpl; auto).
  assert (Hnum : has_column "num_laps_driven_race" f = true)
    by (apply Hc; simpl; auto).
  assert (Htotal : has_column "total_time_race" f = true)
    by (apply Hc; simpl; auto 10).
  pose (f1 := with_starting_position f).
  pose (f2 := with_end_position f1).
  assert (H1 : forall c, has_column c f = true -> has_column c f1 = true)
    by (intros c; apply has_column_with_starting_position).
  assert (Hs1 : has_column "starting_position_race" f1 = true)
    by apply has_column_assign_column_same.
  assert (H2 : forall c, has_column c f1 = true -> has_column c f2 = true)
    by (intros c; apply has_column_with_end_position).
  assert (Hcount : count_present
                     (map time_until_starting_line_race (rows f2))
                   = count_present
                       (map time_until_starting_line_race (rows f))).
  { apply count_present_Permutation, ranked_other; reflexivity. }
  assert (Hpart : participants f2 = participants f).
  { unfold f2, f1.
    now rewrite with_end_position_length, with_starting_position_length. }
  unfold _run_result_calculations.
  rewrite (bind_returns _ _ _ _ _
             (calc_starting_position_returns
                {| self := f; stdout := out |} Htime Hq)).
  cbn [self stdout]. fold f1.
  rewrite (bind_returns _ _ _ _ _
             (calc_race_position_returns
                {| self := f1; stdout := out |}
                (H1 _ Hnum) (H1 _ Htotal) Hs1)).
  cbn [self stdout]. fold f2.
  apply bind_raises.
  apply (interpolate_raises spline {| self := f2; stdout := out |}).
  - apply H2, H1, Htime.
  - cbn [self]. rewrite Hcount. exact Hn.
  - cbn [self]. rewrite Hcount, Hpart. exact Hgap.
Qed.

(** ** Step 4 again: who gets a list, and what else is written *)

(** X9. Where some driver has lap times, step 4 returns, and it writes the
    column [lap_positions_race] and nothing else: no row moves and no
    other cell changes. Under distinct row labels a driver gets a list
    exactly when the cell of the lap times is present; a driver whose cell
    is missing is left without one. Where no driver has lap times, step 4
    raises [ValueError]. *)
Theorem lap_positions_only_for_present_lap_times (w : World) :
  has_column "name" (self w) = true ->
  has_column "time_until_starting_line_race" (self w) = true ->
  has_column "lap_times_race" (self w) = true ->
  has_column "starting_position_race" (self w) = true ->
  has_column "end_position_race" (self w) = true ->
  NoDup (map index (rows (self w))) ->
  ((exists r, In r (rows (self w)) /\ lap_times_race r <> None) ->
   exists w',
     __calc_lap_positions w = Returned tt w' /\
     map unlapped (rows (self w')) = map unlapped (rows (self w)) /\
     has_column "lap_positions_race" (self w') = true /\
     forall r,
       In r (rows (self w')) ->
       (lap_times_race r = None -> lap_positions_race r = None) /\
       (lap_times_race r <> None -> lap_positions_race r <> None)) /\
  ((forall r, In r (rows (self w)) -> lap_times_race r = None) ->
   __calc_lap_positions w = Raised ValueError).
Proof.
  intros H1 H2 H3 H4 H5 Hnd. split.
  - intros Hsome. eexists.
    split; [apply calc_lap_positions_returns; try assumption;
            now apply with_lap_times_nonempty|].
    cbn [self].
    split; [now apply with_lap_positions_other|].
    split; [apply has_lap_positions_race|].
    intros r' Hr'. apply with_lap_positions_In in Hr'.
    destruct Hr' as [r [Hr [[-> Hno]|[v [Hv ->]]]]]; simpl.
    + split; [reflexivity|].
      intros Hl. destruct (lap_times_race r) as [l|] eqn:El; [|congruence].
      destruct (lap_table_complete _ r l Hr El) as [ps Hps].
      destruct (Hno ps Hps).
    + split; [|discriminate].
      intros Hl. apply lap_table_In in Hv.
      destruct Hv as [r0 [l0 [es [Hr0 [Hl0 [Hi _]]]]]].
      assert (r = r0) by now apply (NoDup_index (rows (self w))).
      subst r0. congruence.
  - intros Hnone. apply calc_lap_positions_raises; try assumption.
    now apply with_lap_times_empty.
Qed.

(** ** The pipeline as a whole *)

Lemma diagnostics_never_warn (col : nat) (df : list LapRow) :
  Forall (fun o => o <> WARNING_lap_position_table) (diagnostics col df).
Proof.
  unfold diagnostics. apply Forall_forall. intros o Ho.
  apply in_flat_map in Ho. destruct Ho as [r [_ Ho]].
  destruct (nth col (l_Lap r) None) as [found|]; [|destruct Ho].
  destruct (differs found (l_end_position_race r)); [|destruct Ho].
  destruct Ho as [<-|[]]. discriminate.
Qed.

Lemma has_quali_data_with_lap_positions (f : RaceResultsDataFrame) :
  has_quali_data (with_lap_positions f) = has_quali_data f.
Proof.
  change (has_quali_data
            (assign_column "lap_positions_race" set_lap_positions_race
               (map (fun _ => None) (rows f)) f) = has_quali_data f).
  now apply has_quali_data_assign_column.
Qed.

Lemma has_quali_data_derived
    (spline : list (nat * Q) -> nat -> option Q) (f : RaceResultsDataFrame) :
  has_quali_data (derived spline f) = has_quali_data f.
Proof.
  unfold derived. rewrite has_quali_data_with_lap_positions.
  unfold with_interpolated_time.
  rewrite has_quali_data_assign_column by reflexivity.
  unfold with_end_position.
  rewrite has_quali_data_assign_column by reflexivity.
  apply has_quali_data_with_starting_position.
Qed.

(** X10. The pipeline loses no driver and invents none, and it does not
    touch what the header files say: the rows it leaves carry the same
    raw data as the rows it found, each once. It keeps every column it
    found and adds the three derived ones, none of which counts as
    qualifying data; and what it prints are consistency messages only,
    never the warning of the lap-position view. *)
Theorem pipeline_keeps_the_raw_data
    (spline : list (nat * Q) -> nat -> option Q)
    (f : RaceResultsDataFrame) (out : list Output) :
  runs_through f ->
  exists f' printed,
    _run_result_calculations spline {| self := f; stdout := out |}
    = Returned tt {| self := f'; stdout := out ++ printed |} /\
    participants f' = participants f /\
    Permutation (map raw_data (rows f')) (map raw_data (rows f)) /\
    (forall c, has_column c f = true -> has_column c f' = true) /\
    has_column "starting_position_race" f' = true /\
    has_column "end_position_race" f' = true /\
    has_column "lap_positions_race" f' = true /\
    has_quali_data f' = has_quali_data f /\
    Forall (fun o => o <> WARNING_lap_position_table) printed.
Proof.
  intros Hruns. eexists. eexists.
  split; [apply run_result_calculations_returns; exact Hruns|].
  assert (Hraw : Permutation (map raw_data (rows (derived spline f)))
                             (map raw_data (rows f))).
  { change (derived spline f) with (with_lap_positions (timed spline f)).
    rewrite with_lap_positions_other by reflexivity.
    apply timed_other; reflexivity. }
  split.
  { unfold participants.
    rewrite <- (length_map raw_data (rows (derived spline f))).
    rewrite <- (length_map raw_data (rows f)).
    apply Permutation_length. exact Hraw. }
  split; [exact Hraw|].
  split.
  { intros c Hc. unfold derived.
    apply has_column_with_lap_positions,
      has_column_with_interpolated_time, has_column_with_end_position,
      has_column_with_starting_position. exact Hc. }
  split.
  { unfold derived.
    apply has_column_with_lap_positions, has_column_with_interpolated_time,
      has_column_with_end_position.
    apply has_column_assign_column_same. }
  split.
  { unfold derived.
    apply has_column_with_lap_positions, has_column_with_interpolated_time.
    apply has_column_assign_column_same. }
  split; [apply has_lap_positions_race|].
  split; [apply has_quali_data_derived|].
  apply diagnostics_never_warn.
Qed.

Lemma derived_lap_times
    (spline : list (nat * Q) -> nat -> option Q) (f : RaceResultsDataFrame) :
  Permutation (map lap_times_race (rows (derived spline f)))
              (map lap_times_race (rows f)).
Proof.
  change (derived spline f) with (with_lap_positions (timed spline f)).
  rewrite with_lap_positions_other by reflexivity.
  apply timed_other; reflexivity.
Qed.

Lemma timed_lap_times_all
    (spline : list (nat * Q) -> nat -> option Q) (f : RaceResultsDataFrame) :
  Forall (fun r => lap_times_race r <> None) (rows f) ->
  Forall (fun r => lap_times_race r <> None) (rows (timed spline f)).
Proof.
  intros Hall. apply Forall_forall. intros r Hr.
  assert (H : In (lap_times_race r) (map lap_times_race (rows f))).
  { eapply Permutation_in.
    - apply (timed_other lap_times_race spline f); reflexivity.
    - now apply in_map. }
  apply in_map_iff in H. destruct H as [r0 [E H]].
  rewrite Forall_forall in Hall. rewrite <- E. now apply Hall.
Qed.

(** X11. After the pipeline, on a table in which every driver has lap
    times, the lap-position view is a pure read: it finds the column,
    prints no warning, leaves the table as it is, and returns the
    drivers' names with, one row per driver in row order, the stored
    lists. *)
Theorem lap_position_table_after_the_pipeline
    (spline : list (nat * Q) -> nat -> option Q)
    (f : RaceResultsDataFrame) (out : list Output) :
  runs_through f ->
  Forall (fun r => lap_times_race r <> None) (rows f) ->
  exists w',
    _run_result_calculations spline {| self := f; stdout := out |}
    = Returned tt w' /\
    lap_position_table w'
    = Returned (map name (rows (self w')), of_rows (stored_lists (self w')))
               w' /\
    map lap_positions_race (rows (self w'))
    = map Some (stored_lists (self w')) /\
    List.length (stored_lists (self w')) = participants f.
Proof.
  intros Hruns Hall. eexists.
  split; [apply run_result_calculations_returns; exact Hruns|].
  cbn [self].
  assert (Hname : has_column "name" (derived spline f) = true).
  { unfold derived.
    apply has_column_with_lap_positions, has_column_with_interpolated_time,
      has_column_with_end_position, has_column_with_starting_position.
    destruct Hruns as [[Hc _] _]. apply Hc. simpl. auto. }
  assert (Hlists : Forall (fun r => lap_positions_race r <> None)
                          (rows (derived spline f))).
  { change (derived spline f) with (with_lap_positions (timed spline f)).
    apply with_lap_positions_all. now apply timed_lap_times_all. }
  pose proof (stored_lists_complete (derived spline f) Hlists) as Hcells.
  split; [|split].
  - apply (lap_position_table_reads
             {| self := derived spline f;
                stdout := out ++ diagnostics
                                   (col_pos_last_lap (rows (timed spline f)))
                                   (ranked_frame (rows (timed spline f))) |}
             (S (total_laps (rows (timed spline f))))).
    + apply has_lap_positions_race.
    + exact Hname.
    + exact Hlists.
    + apply with_lap_positions_lengths.
  - exact Hcells.
  - apply (f_equal (@List.length _)) in Hcells.
    rewrite !length_map in Hcells. rewrite <- Hcells.
    rewrite <- (length_map lap_times_race).
    rewrite (Permutation_length (derived_lap_times spline f)).
    now rewrite length_map.
Qed.

Lemma lap_position_table_raises (w : World) (p : list (option nat))
    (cells : list (option (list (option nat)))) :
  has_column "lap_positions_race" (self w) = true ->
  map lap_positions_race (rows (self w)) = Some p :: cells ->
  In None cells ->
  lap_position_table w = Raised TypeError.
Proof.
  intros Hcol Hcells Hmissing.
  unfold lap_position_table, getitem, bind, get_self, ret, raise.
  rewrite Hcol. cbv iota beta. rewrite Hcol. cbv iota beta.
  rewrite Hcells.
  now rewrite (pd_DataFrame_missing p cells w Hmissing).
Qed.

(** X13. After the pipeline, on a table in which the driver classified
    first has lap times and some driver has none, the lap-position view
    raises [TypeError]: the cell of that driver holds no list. *)
Theorem lap_position_table_needs_every_list
    (spline : list (nat * Q) -> nat -> option Q)
    (f : RaceResultsDataFrame) (out : list Output) :
  runs_through f ->
  NoDup (map index (rows f)) ->
  (exists r, In r (rows f) /\ lap_times_race r = None) ->
  exists w',
    _run_result_calculations spline {| self := f; stdout := out |}
    = Returned tt w' /\
    forall r rs,
      rows (self w') = r :: rs -> lap_times_race r <> None ->
      lap_position_table w' = Raised TypeError.
Proof.
  intros Hruns Hnd [r0 [Hr0 Hl0]]. eexists.
  split; [apply run_result_calculations_returns; exact Hruns|].
  cbn [self]. intros r rs Erows Hl.
  pose proof (has_lap_positions_race (timed spline f)) as Hcol.
  change (with_lap_positions (timed spline f)) with (derived spline f)
    in Hcol.
  assert (Hcells : forall r',
             In r' (rows (derived spline f)) ->
             (lap_times_race r' = None -> lap_positions_race r' = None) /\
             (lap_times_race r' <> None -> lap_positions_race r' <> None)).
  { intros r' Hr'.
    change (derived spline f) with (with_lap_positions (timed spline f))
      in Hr'.
    apply with_lap_positions_In in Hr'.
    destruct Hr' as [x [Hx [[-> Hno]|[v [Hv ->]]]]]; simpl.
    - split; [reflexivity|].
      intros Hlx. destruct (lap_times_race x) as [l|] eqn:El; [|congruence].
      destruct (lap_table_complete _ x l Hx El) as [ps Hps].
      destruct (Hno ps Hps).
    - split; [|discriminate].
      intros Hlx. apply lap_table_In in Hv.
      destruct Hv as [y [l [es [Hy [Hly [Hi _]]]]]].
      assert (x = y)
        by (apply (NoDup_index (rows (timed spline f)));
            [now apply timed_NoDup | assumption..]).
      subst y. congruence. }
  assert (Hmissing : In None (map lap_positions_race rs)).
  { assert (H : In None (map lap_times_race (rows (derived spline f)))).
    { eapply Permutation_in.
      - apply Permutation_sym, derived_lap_times.
      - rewrite <- Hl0. now apply in_map. }
    apply in_map_iff in H. destruct H as [r' [E H]].
    destruct (Hcells r' H) as [Hnone _]. specialize (Hnone E).
    rewrite Erows in H. destruct H as [<-|H]; [congruence|].
    rewrite <- Hnone. now apply in_map. }
  assert (Hfirst : exists ps, lap_positions_race r = Some ps).
  { destruct (Hcells r) as [_ Hsome]; [rewrite Erows; now left|].
    specialize (Hsome Hl).
    destruct (lap_positions_race r) as [ps|]; [now exists ps|congruence]. }
  destruct Hfirst as [ps Hps].
  apply (lap_position_table_raises
           {| self := derived spline f;
              stdout := out ++ diagnostics
                                 (col_pos_last_lap (rows (timed spline f)))
                                 (ranked_frame (rows (timed spline f))) |}
           ps (map lap_positions_race rs)).
  - exact Hcol.
  - cbn [self]. rewrite Erows. cbn [map]. now rewrite Hps.
  - exact Hmissing.
Qed.


End Methods.

(** * The examples *)

(** ** Routines that [quicksort] may be *)

(** The stable sort is one of them: on rows no two of which have the same
    key, every such routine returns what it returns. *)
Lemma sort_values_Permutation :
  forall (A : Type) (cmp : A -> A -> comparison) (l : list A),
    Permutation (sort_values cmp l) l.
Proof. intros A cmp l. apply sort_values_perm. Qed.

Lemma sort_values_StronglySorted :
  forall (A : Type) (cmp : A -> A -> comparison),
    Comparator cmp ->
    forall l : list A, StronglySorted (in_order cmp) (sort_values cmp l).
Proof. intros A cmp H l. now apply sort_values_sorted. Qed.

Lemma reversing_sort_Permutation :
  forall (A : Type) (cmp : A -> A -> comparison) (l : list A),
    Permutation (reversing_sort A cmp l) l.
Proof.
  intros A cmp l. unfold reversing_sort.
  eapply perm_trans; [apply sort_values_perm|].
  apply Permutation_sym, Permutation_rev.
Qed.

Lemma reversing_sort_StronglySorted :
  forall (A : Type) (cmp : A -> A -> comparison),
    Comparator cmp ->
    forall l : list A,
      StronglySorted (in_order cmp) (reversing_sort A cmp l).
Proof. intros A cmp H l. unfold reversing_sort. now apply sort_values_sorted. Qed.

(** ** The tables of the examples *)

Lemma race_frame_ready (rs : list Row) : ready (race_frame rs).
Proof.
  split.
  - intros c Hc. simpl in Hc.
    repeat (destruct Hc as [<-|Hc]; [reflexivity|]). destruct Hc.
  - intros H. vm_compute in H. discriminate.
Qed.

Lemma ten_lap_example_runs_through : runs_through ten_lap_example.
Proof.
  split; [apply race_frame_ready|]. split; [reflexivity|].
  eexists. split; [left; reflexivity|]. discriminate.
Qed.

Lemma classification_example_runs_through :
  runs_through classification_example.
Proof.
  split; [apply race_frame_ready|]. split; [reflexivity|].
  eexists. split; [left; reflexivity|]. discriminate.
Qed.

Lemma interpolation_example_runs_through :
  runs_through interpolation_example.
Proof.
  split; [apply race_frame_ready|]. split; [reflexivity|].
  eexists. split; [left; reflexivity|]. discriminate.
Qed.

Lemma empty_laps_example_runs_through : runs_through empty_laps_example.
Proof.
  split; [apply race_frame_ready|]. split; [reflexivity|].
  eexists. split; [left; reflexivity|]. discriminate.
Qed.

Lemma absent_example_runs_through : runs_through absent_example.
Proof.
  split; [apply race_frame_ready|]. split; [reflexivity|].
  eexists. split; [left; reflexivity|]. discriminate.
Qed.

Lemma ten_lap_example_NoDup : NoDup (map index (rows ten_lap_example)).
Proof. simpl. repeat constructor; simpl; intuition discriminate. Qed.

Lemma empty_laps_example_NoDup : NoDup (map index (rows empty_laps_example)).
Proof. simpl. repeat constructor; simpl; intuition discriminate. Qed.

Lemma absent_example_NoDup : NoDup (map index (rows absent_example)).
Proof. simpl. repeat constructor; simpl; intuition discriminate. Qed.

(** ** The claims at the examples *)

Lemma starting_position_ranks_drivers_witness :
  exists f',
    __calc_starting_position (@sort_values)
      {| self := grid_example; stdout := [] |}
    = Returned tt {| self := f'; stdout := [] |} /\
    column time_until_starting_line_race grid_example
    = [("A", Some (1 # 1)%Q); ("B", Some (1 # 2)%Q); ("C", Some (3 # 2)%Q)] /\
    column starting_position_race f'
    = [("B", Some 1); ("A", Some 2); ("C", Some 3)].
Proof.
  assert (Hq : has_quali_data grid_example = true ->
               has_column "fastest_lap_time_quali" grid_example = true)
    by (intros H; vm_compute in H; discriminate).
  destruct (starting_position_ranks_drivers (@sort_values)
              sort_values_Permutation sort_values_StronglySorted
              grid_example [] eq_refl Hq)
    as [f' [Hrun _]].
  exists f'. split; [exact Hrun|].
  vm_compute in Hrun. injection Hrun as <-.
  split; vm_compute; reflexivity.
Defined.

(** C3, as stated, fails: the order among drivers with the same time to
    the line is not the order of the table under every routine the sort
    by one key may run. A and B need the same time, and so do C and D;
    here B starts before A and D before C. *)
Lemma starting_position_ranks_drivers_counterexample :
  (forall (A : Type) (cmp : A -> A -> comparison) (l : list A),
      Permutation (reversing_sort A cmp l) l) /\
  (forall (A : Type) (cmp : A -> A -> comparison),
      Comparator cmp ->
      forall l : list A,
        StronglySorted (in_order cmp) (reversing_sort A cmp l)) /\
  has_quali_data tied_example = false /\
  column time_until_starting_line_race tied_example
  = [("A", Some (2 # 1)%Q); ("B", Some (2 # 1)%Q);
     ("C", Some (1 # 1)%Q); ("D", Some (1 # 1)%Q)] /\
  exists f',
    __calc_starting_position reversing_sort
      {| self := tied_example; stdout := [] |}
    = Returned tt {| self := f'; stdout := [] |} /\
    column starting_position_race f'
    = [("D", Some 1); ("C", Some 2); ("B", Some 3); ("A", Some 4)].
Proof.
  split; [exact reversing_sort_Permutation|].
  split; [exact reversing_sort_StronglySorted|].
  split; [reflexivity|].
  split; [vm_compute; reflexivity|].
  eexists. split; vm_compute; reflexivity.
Qed.

Lemma lap_positions_race_length_witness :
  exists f' out',
    _run_result_calculations (@sort_values) polynomial_through
      {| self := ten_lap_example; stdout := [] |}
    = Returned tt {| self := f'; stdout := out' |} /\
    forall r a l,
      In r (rows f') -> lap_times_race r = Some (a :: l) ->
      exists ps,
        lap_positions_race r = Some ps /\
        List.length ps = S (total_laps (rows f')) /\
        Forall (fun x => x <> None) ps.
Proof.
  apply (lap_positions_race_length (@sort_values) sort_values_Permutation).
  exact ten_lap_example_runs_through.
Defined.

(** C1, as stated, fails: in a race of ten laps the list stored for a
    driver who drove all of them has eleven entries. *)
Lemma lap_positions_race_length_counterexample :
  exists f' out' r ps,
    _run_result_calculations (@sort_values) polynomial_through
      {| self := ten_lap_example; stdout := [] |}
    = Returned tt {| self := f'; stdout := out' |} /\
    In r (rows f') /\
    name r = "P1" /\
    lap_times_race r = Some (repeat (60 # 1)%Q 10) /\
    total_laps (rows f') = 10 /\
    lap_positions_race r = Some ps /\
    ps = repeat (Some 1) 11 /\
    List.length ps <> total_laps (rows f').
Proof.
  eexists. eexists. eexists. eexists.
  split; [vm_compute; reflexivity|].
  split; [left; reflexivity|].
  split; [reflexivity|].
  split; [reflexivity|].
  split; [reflexivity|].
  split; [reflexivity|].
  split; [reflexivity|].
  vm_compute. discriminate.
Qed.

Lemma lap_positions_race_ends_with_end_position_witness :
  exists f' out',
    _run_result_calculations (@sort_values) polynomial_through
      {| self := ten_lap_example; stdout := [] |}
    = Returned tt {| self := f'; stdout := out' |} /\
    forall r a l,
      In r (rows f') -> lap_times_race r = Some (a :: l) ->
      exists ps e,
        lap_positions_race r = Some ps /\
        end_position_race r = Some e /\
        last ps None = Some e.
Proof.
  apply (lap_positions_race_ends_with_end_position (@sort_values)
           sort_values_Permutation).
  - exact ten_lap_example_runs_through.
  - exact ten_lap_example_NoDup.
Defined.

Lemma lap_positions_race_of_lapped_driver_witness :
  exists f' out',
    _run_result_calculations (@sort_values) polynomial_through
      {| self := ten_lap_example; stdout := [] |}
    = Returned tt {| self := f'; stdout := out' |} /\
    forall r l,
      In r (rows f') -> lap_times_race r = Some l ->
      List.length l < total_laps (rows f') ->
      exists ps e,
        lap_positions_race r = Some ps /\
        end_position_race r = Some e /\
        forall lap,
          List.length l < lap <= total_laps (rows f') ->
          nth lap ps None = Some e.
Proof.
  apply (lap_positions_race_of_lapped_driver (@sort_values)
           sort_values_Permutation).
  - exact ten_lap_example_runs_through.
  - exact ten_lap_example_NoDup.
Defined.

(** The driver who drove laps 1 to 8 of 10 and is classified fifth has
    position 5 at laps 9 and 10. *)
Example ten_lap_example_positions :
  exists f' out,
    _run_result_calculations (@sort_values) polynomial_through
      {| self := ten_lap_example; stdout := [] |}
    = Returned tt {| self := f'; stdout := out |} /\
    positions f'
    = [("P1", Some 1, Some 1); ("P2", Some 2, Some 2);
       ("P3", Some 3, Some 3); ("P4", Some 4, Some 4);
       ("P5", Some 5, Some 5)] /\
    nth 4 (lap_positions f') ("", None)
    = ("P5", Some (repeat (Some 5) 11)).
Proof.
  eexists. eexists. split; [|split]; vm_compute; reflexivity.
Qed.

Lemma lap_positions_race_starts_with_starting_position_witness :
  exists f' out',
    _run_result_calculations (@sort_values) polynomial_through
      {| self := ten_lap_example; stdout := [] |}
    = Returned tt {| self := f'; stdout := out' |} /\
    forall r l,
      In r (rows f') -> lap_times_race r = Some l ->
      exists ps s,
        lap_positions_race r = Some ps /\
        starting_position_race r = Some s /\
        hd None ps = Some s.
Proof.
  apply (lap_positions_race_starts_with_starting_position (@sort_values)
           sort_values_Permutation).
  - exact ten_lap_example_runs_through.
  - exact ten_lap_example_NoDup.
Defined.

Lemma end_position_ranks_drivers_witness :
  exists f',
    (exists out',
        _run_result_calculations (@sort_values) polynomial_through
          {| self := classification_example; stdout := [] |}
        = Returned tt {| self := f'; stdout := out' |}) /\
    positions f' = [("A", Some 2, Some 1); ("B", Some 1, Some 2)].
Proof.
  destruct (end_position_ranks_drivers (@sort_values)
              sort_values_Permutation polynomial_through
              classification_example []
              classification_example_runs_through)
    as [f' [out' [Hrun _]]].
  exists f'. split; [exists out'; exact Hrun|].
  vm_compute in Hrun. injection Hrun as <- _. reflexivity.
Defined.

Lemma interpolation_is_indexed_by_end_position_witness :
  let g := with_end_position
             (with_starting_position (@sort_values)
                interpolation_example) in
  positions g
  = [("C", Some 3, Some 1); ("A", Some 1, Some 2);
     ("B", Some 2, Some 3); ("D", Some 4, Some 4)] /\
  reindexed_series g
  = [(1, Some (3 # 1)%Q); (2, Some (1 # 1)%Q); (3, Some (2 # 1)%Q);
     (4, None)] /\
  series_by_starting_grid g
  = [(1, Some (1 # 1)%Q); (2, Some (2 # 1)%Q); (3, Some (3 # 1)%Q);
     (4, None)] /\
  (forall spline,
      column time_until_starting_line_race
        (derived (@sort_values) spline interpolation_example)
      = [("C", Some (3 # 1)%Q); ("A", Some (1 # 1)%Q); ("B", Some (2 # 1)%Q);
         ("D", spline [(1, (3 # 1)%Q); (2, (1 # 1)%Q); (3, (2 # 1)%Q)] 4)]) /\
  (exists v v',
      polynomial_through (present_points (reindexed_series g)) 4 = Some v /\
      polynomial_through (present_points (series_by_starting_grid g)) 4
      = Some v' /\
      (v == 6 # 1)%Q /\ (v' == 4 # 1)%Q).
Proof.
  exact (interpolation_is_indexed_by_end_position (@sort_values)
           sort_values_Permutation sort_values_StronglySorted).
Defined.

Lemma driver_without_lap_times_is_not_excluded_witness :
  exists f',
    (exists out',
        _run_result_calculations (@sort_values) polynomial_through
          {| self := empty_laps_example; stdout := [] |}
        = Returned tt {| self := f'; stdout := out' |} /\
        forall r,
          In r (rows f') -> lap_times_race r = Some [] ->
          exists s e,
            starting_position_race r = Some s /\
            end_position_race r = Some e /\
            lap_positions_race r
            = Some (Some s :: repeat (Some e) (total_laps (rows f')))) /\
    column lap_times_race f'
    = [("A", Some [(60 # 1)%Q; (61 # 1)%Q]);
       ("D", Some [(62 # 1)%Q; (63 # 1)%Q]);
       ("C", Some [(60 # 1)%Q]);
       ("B", Some [])] /\
    positions f'
    = [("A", Some 2, Some 1); ("D", Some 3, Some 2);
       ("C", Some 1, Some 3); ("B", Some 4, Some 4)] /\
    lap_positions f'
    = [("A", Some [Some 2; Some 2; Some 1]);
       ("D", Some [Some 3; Some 3; Some 2]);
       ("C", Some [Some 1; Some 1; Some 3]);
       ("B", Some [Some 4; Some 4; Some 4])].
Proof.
  destruct (driver_without_lap_times_is_not_excluded (@sort_values)
              sort_values_Permutation polynomial_through
              empty_laps_example []
              empty_laps_example_runs_through empty_laps_example_NoDup)
    as [f' [out' [Hrun H]]].
  exists f'. split; [exists out'; split; [exact Hrun | exact H]|].
  vm_compute in Hrun. injection Hrun as <- _.
  split; [|split]; vm_compute; reflexivity.
Defined.



(** ** The further properties at the examples *)

Lemma starting_grid_in_plain_terms_witness :
  exists f',
    (__calc_starting_position (@sort_values)
       {| self := qualifying_example; stdout := [] |}
     = Returned tt {| self := f'; stdout := [] |} /\
     forall a b pa pb,
       In a (rows f') -> In b (rows f') ->
       starting_position_race a = Some pa ->
       starting_position_race b = Some pb ->
       (has_quali_data qualifying_example = false ->
        forall x,
          time_until_starting_line_race a = Some x ->
          match time_until_starting_line_race b with
          | Some y => (x < y)%Q -> pa < pb
          | None => pa < pb
          end) /\
       (has_quali_data qualifying_example = true ->
        forall x,
          fastest_lap_time_quali a = Some x ->
          match fastest_lap_time_quali b with
          | Some y =>
              ((x < y)%Q -> pa < pb) /\
              ((x == y)%Q ->
               forall t,
                 time_until_starting_line_race a = Some t ->
                 match time_until_starting_line_race b with
                 | Some u => (t < u)%Q -> pa < pb
                 | None => pa < pb
                 end)
          | None => pa < pb
          end)) /\
    map (fun r => (name r, starting_position_race r)) (rows f')
    = [("B", Some 1); ("A", Some 2); ("C", Some 3)].
Proof.
  destruct (starting_grid_in_plain_terms (@sort_values)
              sort_values_Permutation sort_values_StronglySorted
              qualifying_example [] eq_refl (fun _ => eq_refl))
    as [f' [Hrun H]].
  exists f'. split; [split; [exact Hrun | exact H]|].
  vm_compute in Hrun. injection Hrun as <-. reflexivity.
Defined.

Lemma ranking_steps_are_idempotent_witness :
  exists w1 w2,
    __calc_starting_position (@sort_values)
      {| self := grid_example; stdout := [] |}
    = Returned tt w1 /\
    __calc_race_position (@sort_values) w1 = Returned tt w2 /\
    __calc_race_position (@sort_values) w2 = Returned tt w2 /\
    (has_quali_data grid_example = true \/
     no_ties by_time_until_starting_line_race (rows grid_example) = true ->
     __calc_starting_position (@sort_values) w1 = Returned tt w1).
Proof.
  apply (ranking_steps_are_idempotent (@sort_values)
           sort_values_Permutation sort_values_StronglySorted
           {| self := grid_example; stdout := [] |});
    try reflexivity.
  intros H. vm_compute in H. discriminate.
Defined.

Lemma later_steps_need_the_starting_position_witness :
  __calc_race_position (@sort_values)
    {| self := lapped_example; stdout := [] |}
  = Raised (KeyError "starting_position_race") /\
  __calc_lap_positions (@sort_values)
    {| self := lapped_example; stdout := [] |}
  = Raised (KeyError "starting_position_race") /\
  lap_position_table (@sort_values)
    {| self := lapped_example; stdout := [] |}
  = Raised (KeyError "starting_position_race").
Proof.
  apply (later_steps_need_the_starting_position (@sort_values)
           {| self := lapped_example; stdout := [] |}).
  - apply race_frame_ready.
  - reflexivity.
  - reflexivity.
Defined.

Lemma classification_in_plain_terms_witness :
  exists f' out',
    _run_result_calculations (@sort_values) polynomial_through
      {| self := empty_laps_example; stdout := [] |}
    = Returned tt {| self := f'; stdout := out' |} /\
    forall a b pa pb,
      In a (rows f') -> In b (rows f') ->
      end_position_race a = Some pa -> end_position_race b = Some pb ->
      (forall n,
          num_laps_driven_race a = Some n ->
          num_laps_driven_race b = None -> pa < pb) /\
      (forall x,
          num_laps_driven_race a = num_laps_driven_race b ->
          total_time_race a = Some x ->
          match total_time_race b with
          | Some y => (x < y)%Q -> pa < pb
          | None => pa < pb
          end) /\
      (forall sa sb,
          num_laps_driven_race a = num_laps_driven_race b ->
          (total_time_race a = None /\ total_time_race b = None \/
           exists x y, total_time_race a = Some x /\
                       total_time_race b = Some y /\ (x == y)%Q) ->
          starting_position_race a = Some sa ->
          starting_position_race b = Some sb ->
          sa < sb -> pa < pb).
Proof.
  apply (classification_in_plain_terms (@sort_values)
           sort_values_Permutation).
  exact empty_laps_example_runs_through.
Defined.

Lemma interpolation_keeps_present_values_witness :
  exists f',
    __interpolate_time_until_starting_line_race polynomial_through
      {| self := with_end_position
                   (with_starting_position (@sort_values)
                      interpolation_example);
         stdout := [] |}
    = Returned tt {| self := f'; stdout := [] |} /\
    column time_until_starting_line_race f'
    = [("C", Some (3 # 1)%Q); ("A", Some (1 # 1)%Q); ("B", Some (2 # 1)%Q);
       ("D", Some (24 # 4)%Q)].
Proof.
  destruct (interpolation_keeps_present_values polynomial_through
              {| self := with_end_position
                           (with_starting_position (@sort_values)
                              interpolation_example);
                 stdout := [] |} eq_refl eq_refl) as [f' [Hrun _]].
  exists f'. split; [exact Hrun|].
  vm_compute in Hrun. injection Hrun as <-. reflexivity.
Defined.

Lemma pipeline_needs_three_times_to_the_line_witness :
  column time_until_starting_line_race lapped_example
  = [("A", Some (5 # 1)%Q); ("B", None); ("C", Some (3 # 1)%Q)] /\
  _run_result_calculations (@sort_values) polynomial_through
    {| self := lapped_example; stdout := [] |}
  = Raised dfitpack_error.
Proof.
  split; [vm_compute; reflexivity|].
  apply (pipeline_needs_three_times_to_the_line (@sort_values)
           sort_values_Permutation).
  - apply race_frame_ready.
  - vm_compute. lia.
  - vm_compute. lia.
Defined.

Lemma lap_positions_only_for_present_lap_times_witness :
  let f := timed (@sort_values) polynomial_through absent_example in
  exists w',
    (__calc_lap_positions (@sort_values) {| self := f; stdout := [] |}
     = Returned tt w' /\
     map unlapped (rows (self w')) = map unlapped (rows f) /\
     has_column "lap_positions_race" (self w') = true /\
     forall r,
       In r (rows (self w')) ->
       (lap_times_race r = None -> lap_positions_race r = None) /\
       (lap_times_race r <> None -> lap_positions_race r <> None)) /\
    lap_positions (self w')
    = [("A", Some [Some 2; Some 2; Some 1]);
       ("D", Some [Some 3; Some 3; Some 2]);
       ("C", Some [Some 1; Some 1; Some 3]);
       ("B", None)].
Proof.
  cbv zeta.
  assert (Hnd : NoDup (map index
                         (rows (timed (@sort_values) polynomial_through
                                  absent_example))))
    by (vm_compute; repeat constructor; simpl; intuition discriminate).
  destruct (lap_positions_only_for_present_lap_times (@sort_values)
              sort_values_Permutation
              {| self := timed (@sort_values) polynomial_through
                           absent_example;
                 stdout := [] |}
              eq_refl eq_refl eq_refl eq_refl eq_refl Hnd)
    as [Hsome _].
  destruct Hsome as [w' [Hrun H]].
  { eexists. split; [left; reflexivity|]. vm_compute. discriminate. }
  exists w'. split; [split; [exact Hrun | exact H]|].
  vm_compute in Hrun. injection Hrun as <-. reflexivity.
Defined.

Lemma pipeline_keeps_the_raw_data_witness :
  exists f' printed,
    _run_result_calculations (@sort_values) polynomial_through
      {| self := interpolation_example; stdout := [] |}
    = Returned tt {| self := f'; stdout := [] ++ printed |} /\
    participants f' = participants interpolation_example /\
    Permutation (map raw_data (rows f'))
                (map raw_data (rows interpolation_example)) /\
    (forall c, has_column c interpolation_example = true ->
               has_column c f' = true) /\
    has_column "starting_position_race" f' = true /\
    has_column "end_position_race" f' = true /\
    has_column "lap_positions_race" f' = true /\
    has_quali_data f' = has_quali_data interpolation_example /\
    Forall (fun o => o <> WARNING_lap_position_table) printed.
Proof.
  apply (pipeline_keeps_the_raw_data (@sort_values)
           sort_values_Permutation).
  exact interpolation_example_runs_through.
Defined.

Lemma lap_position_table_after_the_pipeline_witness :
  exists w',
    (_run_result_calculations (@sort_values) polynomial_through
       {| self := empty_laps_example; stdout := [] |}
     = Returned tt w' /\
     lap_position_table (@sort_values) w'
     = Returned (map name (rows (self w')),
                 of_rows (stored_lists (self w'))) w' /\
     map lap_positions_race (rows (self w'))
     = map Some (stored_lists (self w')) /\
     List.length (stored_lists (self w'))
     = participants empty_laps_example) /\
    lap_position_table (@sort_values) w'
    = Returned (["A"; "D"; "C"; "B"],
                of_rows [[Some 2; Some 2; Some 1];
                         [Some 3; Some 3; Some 2];
                         [Some 1; Some 1; Some 3];
                         [Some 4; Some 4; Some 4]]) w'.
Proof.
  assert (Hall : Forall (fun r => lap_times_race r <> None)
                        (rows empty_laps_example))
    by (repeat constructor; discriminate).
  destruct (lap_position_table_after_the_pipeline (@sort_values)
              sort_values_Permutation polynomial_through
              empty_laps_example []
              empty_laps_example_runs_through Hall) as [w' [Hrun H]].
  exists w'. split; [split; [exact Hrun | exact H]|].
  vm_compute in Hrun. injection Hrun as <-. vm_compute. reflexivity.
Defined.

Lemma lap_position_table_needs_every_list_witness :
  exists w',
    (_run_result_calculations (@sort_values) polynomial_through
       {| self := absent_example; stdout := [] |}
     = Returned tt w' /\
     forall r rs,
       rows (self w') = r :: rs -> lap_times_race r <> None ->
       lap_position_table (@sort_values) w' = Raised TypeError) /\
    lap_positions (self w')
    = [("A", Some [Some 2; Some 2; Some 1]);
       ("D", Some [Some 3; Some 3; Some 2]);
       ("C", Some [Some 1; Some 1; Some 3]);
       ("B", None)] /\
    lap_position_table (@sort_values) w' = Raised TypeError.
Proof.
  assert (Hnone : exists r, In r (rows absent_example) /\
                            lap_times_race r = None)
    by (eexists; split; [right; left; reflexivity | reflexivity]).
  destruct (lap_position_table_needs_every_list (@sort_values)
              sort_values_Permutation polynomial_through
              absent_example []
              absent_example_runs_through absent_example_NoDup Hnone)
    as [w' [Hrun H]].
  exists w'. split; [split; [exact Hrun | exact H]|].
  vm_compute in Hrun. injection Hrun as <-.
  split; vm_compute; reflexivity.
Defined.

